(** * Kagyur text splitter: a shallow embedding of [kagyur_splitter.py]

    The development follows
    [src/wikisource/text_operations/text_splitter_txt/kagyur_splitter.py]:
    the five compiled patterns, [process_line], [is_meaningful_line],
    [count_meaningful_lines_before_section], [replace_page_markers],
    [process_file], [write_section_file] and [process_all_files].

    Representation choices.
    - A Python [str] is a list of Unicode code points ([N]).
    - [page_counter], [section_counter] and [content_threshold] are
      unbounded Python integers that only count upwards: [nat].
    - [first_section_line] may be [-1]: [Z].
    - A regular expression is embedded as the anchored matcher it denotes,
      [str -> option (groups * rest)].  In each of the five patterns a
      repetition is followed by a character outside the repeated class, so
      the greedy choice is the only one that can succeed and the
      backtracking engine never revisits it; every pattern matches at
      least one character, so the empty-match rules of [re.sub] never
      come into play.  The lemmas [*_some] below state, pattern by
      pattern, that the matcher accepts exactly the words of the
      expression.
    - [process_file] is given the lines that [content.splitlines()]
      yields; reading, writing and the exceptions they raise are modelled
      for [process_all_files], over input files whose content does not
      change during the batch (the output directory is not the input
      directory). *)

From Stdlib Require Import String Ascii List NArith ZArith Arith Bool Lia.
Import ListNotations.

Set Implicit Arguments.

(** ** Text and character classes *)

Definition char := N.
Definition str := list char.

(** The code points of an ASCII literal. *)
Definition lit (s : string) : str := map N_of_ascii (list_ascii_of_string s).

Definition LBRACE : char := 123%N.   (* { *)
Definition RBRACE : char := 125%N.   (* } *)
Definition LBRACKET : char := 91%N.  (* [ *)
Definition RBRACKET : char := 93%N.  (* ] *)
Definition COMMA : char := 44%N.     (* , *)
Definition DOT : char := 46%N.       (* . *)
Definition DASH : char := 45%N.      (* - *)
Definition UPPER_D : char := 68%N.   (* D *)
Definition UPPER_P : char := 80%N.   (* P *)

Definition in_range (c : char) (r : N * N) : bool :=
  (fst r <=? c)%N && (c <=? snd r)%N.

(** [\d] on a [str] pattern: the decimal digits of Unicode (category Nd),
    as tabulated by the Unicode 14.0 database of CPython 3.11. *)
Definition nd_ranges : list (N * N) :=
  [ (48, 57); (1632, 1641); (1776, 1785); (1984, 1993); (2406, 2415);
    (2534, 2543); (2662, 2671); (2790, 2799); (2918, 2927); (3046, 3055);
    (3174, 3183); (3302, 3311); (3430, 3439); (3558, 3567); (3664, 3673);
    (3792, 3801); (3872, 3881); (4160, 4169); (4240, 4249); (6112, 6121);
    (6160, 6169); (6470, 6479); (6608, 6617); (6784, 6793); (6800, 6809);
    (6992, 7001); (7088, 7097); (7232, 7241); (7248, 7257); (42528, 42537);
    (43216, 43225); (43264, 43273); (43472, 43481); (43504, 43513);
    (43600, 43609); (44016, 44025); (65296, 65305); (66720, 66729);
    (68912, 68921); (69734, 69743); (69872, 69881); (69942, 69951);
    (70096, 70105); (70384, 70393); (70736, 70745); (70864, 70873);
    (71248, 71257); (71360, 71369); (71472, 71481); (71904, 71913);
    (72016, 72025); (72784, 72793); (73040, 73049); (73120, 73129);
    (92768, 92777); (92864, 92873); (93008, 93017); (120782, 120831);
    (123200, 123209); (123632, 123641); (125264, 125273);
    (130032, 130041) ]%N.

Definition is_digit (c : char) : bool := existsb (in_range c) nd_ranges.

(** [[a-z]] *)
Definition is_lower (c : char) : bool := (97 <=? c)%N && (c <=? 122)%N.

(** The characters removed by [str.strip()]. *)
Definition whitespace : list N :=
  [ 9; 10; 11; 12; 13; 28; 29; 30; 31; 32; 133; 160; 5760; 8192; 8193; 8194;
    8195; 8196; 8197; 8198; 8199; 8200; 8201; 8202; 8232; 8233; 8239; 8287;
    12288 ]%N.

Definition is_space (c : char) : bool := existsb (N.eqb c) whitespace.

(** [[^,}]] and [[^}]] *)
Definition not_comma_rbrace (c : char) : bool :=
  negb (c =? COMMA)%N && negb (c =? RBRACE)%N.
Definition not_rbrace (c : char) : bool := negb (c =? RBRACE)%N.

Fixpoint dropwhile (p : char -> bool) (s : str) : str :=
  match s with
  | c :: s' => if p c then dropwhile p s' else s
  | [] => []
  end.

Definition strip (s : str) : str :=
  rev (dropwhile is_space (rev (dropwhile is_space s))).

(** ** Anchored matchers *)

(** The longest prefix of [s] made of characters in [p], and the rest. *)
Fixpoint span (p : char -> bool) (s : str) : str * str :=
  match s with
  | c :: s' =>
      if p c then let (a, r) := span p s' in (c :: a, r) else ([], s)
  | [] => ([], [])
  end.

Definition matcher (G : Type) := str -> option (G * str).

Definition bind {A B} (x : option A) (k : A -> option B) : option B :=
  match x with Some a => k a | None => None end.

Notation "x <- e ;; k" := (bind e (fun x => k))
  (at level 61, e at next level, right associativity).
Notation "' p <- e ;; k" := (bind e (fun x => let 'p := x in k))
  (at level 61, p pattern, e at next level, right associativity).

(** One literal character. *)
Definition expect (c : char) (s : str) : option str :=
  match s with
  | x :: s' => if (x =? c)%N then Some s' else None
  | [] => None
  end.

(** One character of a class. *)
Definition one (p : char -> bool) (s : str) : option (char * str) :=
  match s with
  | x :: s' => if p x then Some (x, s') else None
  | [] => None
  end.

(** [p+], greedy. *)
Definition plus (p : char -> bool) (s : str) : option (str * str) :=
  match span p s with
  | ([], _) => None
  | (a, r) => Some (a, r)
  end.

(** [([a-z])?], greedy. *)
Definition opt_lower (s : str) : option char * str :=
  match s with
  | x :: s' => if is_lower x then (Some x, s') else (None, s)
  | [] => (None, s)
  end.

(** [\{D(\d+)([a-z])?\}] *)
Definition SECTION_TOKEN_RE : matcher (str * option char) := fun s =>
  s1 <- expect LBRACE s ;;
  s2 <- expect UPPER_D s1 ;;
  '(num, s3) <- plus is_digit s2 ;;
  let '(letter, s4) := opt_lower s3 in
  s5 <- expect RBRACE s4 ;;
  Some ((num, letter), s5).

(** [\{D\d+-\d+\}] *)
Definition SECTION_DASH_TOKEN_RE : matcher unit := fun s =>
  s1 <- expect LBRACE s ;;
  s2 <- expect UPPER_D s1 ;;
  '(_, s3) <- plus is_digit s2 ;;
  s4 <- expect DASH s3 ;;
  '(_, s5) <- plus is_digit s4 ;;
  s6 <- expect RBRACE s5 ;;
  Some (tt, s6).

(** [\[\d+[a-z]\.\d+\]] *)
Definition BRACKET_WITH_DOT_RE : matcher unit := fun s =>
  s1 <- expect LBRACKET s ;;
  '(_, s2) <- plus is_digit s1 ;;
  '(_, s3) <- one is_lower s2 ;;
  s4 <- expect DOT s3 ;;
  '(_, s5) <- plus is_digit s4 ;;
  s6 <- expect RBRACKET s5 ;;
  Some (tt, s6).

(** [\[\d+[a-z]\]] *)
Definition BRACKET_PAGE_RE : matcher unit := fun s =>
  s1 <- expect LBRACKET s ;;
  '(_, s2) <- plus is_digit s1 ;;
  '(_, s3) <- one is_lower s2 ;;
  s4 <- expect RBRACKET s3 ;;
  Some (tt, s4).

(** [\{([^,}]+),([^}]+)\}] *)
Definition TEXT_VARIANT_RE : matcher (str * str) := fun s =>
  s1 <- expect LBRACE s ;;
  '(a, s2) <- plus not_comma_rbrace s1 ;;
  s3 <- expect COMMA s2 ;;
  '(b, s4) <- plus not_rbrace s3 ;;
  s5 <- expect RBRACE s4 ;;
  Some ((a, b), s5).

(** ** [search] and [sub] *)

(** [pattern.search(s)]: the leftmost match, with the text after it. *)
Fixpoint re_search {G} (m : matcher G) (s : str) : option (G * str) :=
  match m s with
  | Some r => Some r
  | None =>
      match s with
      | _ :: s' => re_search m s'
      | [] => None
      end
  end.

(** [bool(pattern.search(s))] *)
Definition re_test {G} (m : matcher G) (s : str) : bool :=
  match re_search m s with Some _ => true | None => false end.

(** [pattern.sub(repl, s)] with a callable [repl] that may update the
    variables it closes over (state [St]): scan from the left, replace each
    match and resume after it, copy every other character.  The scan
    recurses on the text after a match, which is not a subterm: [fuel]
    bounds the number of iterations and [re_sub_st] supplies the length of
    the text, which always suffices ([re_sub_fuel_enough]). *)
Fixpoint re_sub_fuel {G St} (m : matcher G) (repl : G -> St -> str * St)
    (fuel : nat) (s : str) (st : St) : str * St :=
  match fuel with
  | O => (s, st)
  | S fuel' =>
      match s with
      | [] => ([], st)
      | c :: s' =>
          match m s with
          | Some (g, rest) =>
              let (r, st1) := repl g st in
              let (o, st2) := re_sub_fuel m repl fuel' rest st1 in
              (r ++ o, st2)
          | None =>
              let (o, st2) := re_sub_fuel m repl fuel' s' st in
              (c :: o, st2)
          end
      end
  end.

Definition re_sub_st {G St} (m : matcher G) (repl : G -> St -> str * St)
    (s : str) (st : St) : str * St :=
  re_sub_fuel m repl (length s) s st.

(** [pattern.sub(repl, s)] with a template or a pure callable. *)
Definition re_sub {G} (m : matcher G) (repl : G -> str) (s : str) : str :=
  fst (re_sub_st m (fun g (_ : unit) => (repl g, tt)) s tt).

(** ** [LineByLineProcessor] *)

Definition str_eq_dec : forall a b : str, {a = b} + {a <> b} :=
  list_eq_dec N.eq_dec.

(** [TEXT_VARIANT_RE.sub(r"\2", line)]: text variants, keep the right
    side. *)
Definition collapse_variants (line : str) : str :=
  re_sub TEXT_VARIANT_RE (fun g => snd g) line.

(** [BRACKET_WITH_DOT_RE.sub("", line)]: remove dotted page markers. *)
Definition delete_dotted (line : str) : str :=
  re_sub BRACKET_WITH_DOT_RE (fun _ => []) line.

(** [SECTION_DASH_TOKEN_RE.sub("", line)]: remove section dash tokens. *)
Definition delete_dash_tokens (line : str) : str :=
  re_sub SECTION_DASH_TOKEN_RE (fun _ => []) line.

(** [process_line]: the cleaned line, the section token if one is found,
    and whether a bare page marker remains.  [None] is Python's [None]. *)
Definition process_line (line : str) : str * option str * bool :=
  let line := collapse_variants line in
  let line := delete_dotted line in
  let line := delete_dash_tokens line in
  match re_search SECTION_TOKEN_RE line with
  | Some ((sect_num, sect_letter), _) =>
      let section_token :=
        UPPER_D :: sect_num ++
          match sect_letter with Some l => [l] | None => [] end in
      let line := re_sub SECTION_TOKEN_RE (fun _ => []) line in
      (line, Some section_token, re_test BRACKET_PAGE_RE line)
  | None => (line, None, re_test BRACKET_PAGE_RE line)
  end.

Definition is_meaningful_line (line : str) : bool :=
  let cleaned := strip (re_sub BRACKET_PAGE_RE (fun _ => []) line) in
  let cleaned := strip (re_sub BRACKET_WITH_DOT_RE (fun _ => []) cleaned) in
  (0 <? length cleaned)%nat.

(** The loop of [count_meaningful_lines_before_section], started at index
    [i] with [meaningful_count] lines counted so far. *)
Fixpoint count_loop (lines : list str) (i : Z) (meaningful_count : nat)
    : nat * Z :=
  match lines with
  | [] => (meaningful_count, (-1)%Z)
  | line :: rest =>
      if re_test SECTION_TOKEN_RE line then (meaningful_count, i)
      else count_loop rest (i + 1)%Z
             (if is_meaningful_line line then meaningful_count + 1
              else meaningful_count)
  end.

Definition count_meaningful_lines_before_section (lines : list str)
    : nat * Z :=
  count_loop lines 0%Z 0.

(** [str(n)] for a non-negative integer. *)
Fixpoint uint_digits (u : Decimal.uint) : str :=
  match u with
  | Decimal.Nil => []
  | Decimal.D0 u => 48%N :: uint_digits u
  | Decimal.D1 u => 49%N :: uint_digits u
  | Decimal.D2 u => 50%N :: uint_digits u
  | Decimal.D3 u => 51%N :: uint_digits u
  | Decimal.D4 u => 52%N :: uint_digits u
  | Decimal.D5 u => 53%N :: uint_digits u
  | Decimal.D6 u => 54%N :: uint_digits u
  | Decimal.D7 u => 55%N :: uint_digits u
  | Decimal.D8 u => 56%N :: uint_digits u
  | Decimal.D9 u => 57%N :: uint_digits u
  end.

Definition str_of_nat (n : nat) : str := uint_digits (Nat.to_uint n).

(** The closure [repl] of [replace_page_markers]; its [nonlocal]
    [page_counter] is the state threaded through the substitution. *)
Definition repl (_ : unit) (page_counter : nat) : str * nat :=
  (lit "Page: " ++ str_of_nat page_counter, page_counter + 1).

Definition replace_page_markers (line : str) (page_counter : nat)
    : str * nat :=
  re_sub_st BRACKET_PAGE_RE repl line page_counter.

(** One call of [write_section_file]: the section it was given, the name
    of the file under [output_dir] that it returns, and the lines whose
    newline-join it writes there. *)
Record written := {
  w_section : str;
  w_path : str;
  w_lines : list str
}.

Definition write_section_file (stem section : str) (lines : list str)
    : written :=
  let output_name :=
    if str_eq_dec section (lit "UNKNOWN") then stem ++ lit ".txt"
    else if str_eq_dec section (lit "BASE") then stem ++ lit ".txt"
    else stem ++ lit "_" ++ section ++ lit ".txt" in
  {| w_section := section; w_path := output_name; w_lines := lines |}.

(** ["\n".join(lines)] *)
Fixpoint join_lines (lines : list str) : str :=
  match lines with
  | [] => []
  | [l] => l
  | l :: rest => l ++ 10%N :: join_lines rest
  end.

(** The local variables of [process_file] that live across iterations. *)
Record state := {
  output_files : list written;
  current_lines : list str;
  current_section : str;
  page_counter : nat;
  last_page_marker_line : option str;
  section_counter : nat
}.

Definition initial_state : state :=
  {| output_files := [];
     current_lines := [];
     current_section := lit "UNKNOWN";
     page_counter := 1;
     last_page_marker_line := None;
     section_counter := 0 |}.

(** The backward loop [for i in range(len(current_lines) - 1, -1, -1)]:
    the last line with a bare page marker, popped from the list. *)
Fixpoint pop_last_marker (lines : list str) : option (str * list str) :=
  match lines with
  | [] => None
  | l :: rest =>
      match pop_last_marker rest with
      | Some (x, rest') => Some (x, l :: rest')
      | None => if re_test BRACKET_PAGE_RE l then Some (l, rest) else None
      end
  end.

(** [if last_page_marker_line is not None and current_lines: ...] *)
Definition find_and_remove (last : option str) (lines : list str)
    : option str * list str :=
  match last, lines with
  | Some _, _ :: _ =>
      match pop_last_marker lines with
      | Some (x, lines') => (Some x, lines')
      | None => (last, lines)
      end
  | _, _ => (last, lines)
  end.

(** The flush that both boundary branches of [process_file] spell out:
    remove the last page-marker line, write the buffer as [flush_as], open
    the buffer of [section_token], re-home the pending line as "Page: 1",
    and count the section ([section_counter] restarts from [sc]). *)
Definition flush_and_open (stem flush_as section_token : str) (sc : nat)
    (st : state) : state :=
  let (last, lines) :=
    find_and_remove (last_page_marker_line st) (current_lines st) in
  let out := output_files st ++ [write_section_file stem flush_as lines] in
  match last with
  | Some l =>
      {| output_files := out;
         current_lines := [re_sub BRACKET_PAGE_RE (fun _ => lit "Page: 1") l];
         current_section := section_token;
         page_counter := 2;
         last_page_marker_line := None;
         section_counter := sc + 1 |}
  | None =>
      {| output_files := out;
         current_lines := [];
         current_section := section_token;
         page_counter := 1;
         last_page_marker_line := None;
         section_counter := sc + 1 |}
  end.

(** [if section_token: ...] *)
Definition on_section_token (stem : str) (should_split_before_first : bool)
    (section_token : str) (st : state) : state :=
  if section_counter st =? 0 then
    if should_split_before_first then
      flush_and_open stem (lit "BASE") section_token (section_counter st) st
    else
      {| output_files := output_files st;
         current_lines := current_lines st;
         current_section := section_token;
         page_counter := page_counter st;
         last_page_marker_line := last_page_marker_line st;
         section_counter := section_counter st + 1 |}
  else
    flush_and_open stem (current_section st) section_token 0 st.

(** [if has_page_marker: ...] and [current_lines.append(processed_line)] *)
Definition append_line (line processed_line : str) (has_page_marker : bool)
    (st : state) : state :=
  if has_page_marker then
    let (processed_line, pc) :=
      replace_page_markers processed_line (page_counter st) in
    {| output_files := output_files st;
       current_lines := current_lines st ++ [processed_line];
       current_section := current_section st;
       page_counter := pc;
       last_page_marker_line :=
         if 0 <? section_counter st then Some line
         else last_page_marker_line st;
       section_counter := section_counter st |}
  else
    {| output_files := output_files st;
       current_lines := current_lines st ++ [processed_line];
       current_section := current_section st;
       page_counter := page_counter st;
       last_page_marker_line := last_page_marker_line st;
       section_counter := section_counter st |}.

(** The body of [for line in lines]. *)
Definition step (stem : str) (should_split_before_first : bool)
    (st : state) (line : str) : state :=
  let '(processed_line, section_token, has_page_marker) :=
    process_line line in
  let st :=
    match section_token with
    | Some tok => on_section_token stem should_split_before_first tok st
    | None => st
    end in
  append_line line processed_line has_page_marker st.

Definition should_split (content_threshold : nat) (lines : list str) : bool :=
  let (meaningful_count, first_section_line) :=
    count_meaningful_lines_before_section lines in
  (content_threshold <=? meaningful_count) && (0 <? first_section_line)%Z.

Definition scan (stem : str) (content_threshold : nat) (lines : list str)
    : state :=
  fold_left (step stem (should_split content_threshold lines)) lines
    initial_state.

(** [if current_lines: ...] after the loop. *)
Definition final_flush (stem : str) (st : state) : list written :=
  match current_lines st with
  | [] => output_files st
  | _ :: _ =>
      output_files st
        ++ [write_section_file stem (current_section st) (current_lines st)]
  end.

(** [process_file] on the lines of the file it has read: the calls of
    [write_section_file] it makes, in order (their paths are the list it
    returns). *)
Definition process_file (stem : str) (content_threshold : nat)
    (lines : list str) : list written :=
  final_flush stem (scan stem content_threshold lines).


(** * Notions used to state the properties *)

(** What stops a run: the end of the text or a character outside [p]. *)
Definition stops (p : char -> bool) (r : str) : Prop :=
  match r with [] => True | c :: _ => p c = false end.

Definition all (p : char -> bool) (s : str) : Prop := forallb p s = true.

Definition consumes {G} (m : matcher G) : Prop :=
  forall s g rest, m s = Some (g, rest) -> length rest < length s.

(** A replacement that only records the groups of the match. *)
Definition collect {G} (g : G) (acc : list G) : str * list G :=
  ([], acc ++ [g]).

(** The groups of the successive matches found by the scan of [sub]
    (what [pattern.finditer] yields), collected by the scan itself. *)
Definition re_matches {G} (m : matcher G) (s : str) : list G :=
  snd (re_sub_st m collect s []).

Definition has_char (c : char) (s : str) : bool := existsb (N.eqb c) s.

(** No retained right side of a collapsed group contains an opening
    brace. *)
Definition rights_without_lbrace (line : str) : bool :=
  forallb (fun g => negb (has_char LBRACE (snd g)))
    (re_matches TEXT_VARIANT_RE line).

(** A stretch [u] of text in front of [r] in which no match starts. *)
Definition quiet (u r : str) : Prop :=
  forall u1 u2, u = u1 ++ u2 -> u2 <> [] -> TEXT_VARIANT_RE (u2 ++ r) = None.

(** What may follow a comma that opens no right side. *)
Definition dead (x : str) : Prop :=
  match x with [] => True | c :: _ => c = RBRACE end.

(** Replacement texts that start with [P] and hold no opening bracket:
    "Page: N" for every [N]. *)
Definition page_text {St} (f : unit -> St -> str * St) : Prop :=
  forall g st, exists r, fst (f g st) = UPPER_P :: r /\ ~ In LBRACKET r.

(** ** The steps and results of [process_line] *)

(** [pattern.fullmatch(s)] for a pattern without groups. *)
Definition fullmatch (m : matcher unit) (s : str) : bool :=
  match m s with Some (_, []) => true | _ => false end.

Definition processed (line : str) : str := fst (fst (process_line line)).
Definition token_of (line : str) : option str := snd (fst (process_line line)).
Definition marker_flag (line : str) : bool := snd (process_line line).

(** ** The scan of [process_file], step by step *)

(** The state after the [if section_token:] block of an iteration. *)
Definition after_token (stem : str) (split : bool) (st : state) (line : str)
    : state :=
  match token_of line with
  | Some tok => on_section_token stem split tok st
  | None => st
  end.

(** Whether that block flushed the buffer. *)
Definition flushes (split : bool) (st : state) (line : str) : bool :=
  match token_of line with
  | Some _ => if section_counter st =? 0 then split else true
  | None => false
  end.

Definition run (stem : str) (split : bool) (lines : list str) : state :=
  fold_left (step stem split) lines initial_state.

(** The lines [process_file] appends for [lines] when nothing is flushed:
    each processed line with its bare markers numbered from [c] on. *)
Fixpoint number_lines (c : nat) (lines : list str) : list str :=
  match lines with
  | [] => []
  | l :: rest =>
      let (l', c') := replace_page_markers (processed l) c in
      l' :: number_lines c' rest
  end.

(** ** Output files *)

Definition has_base (out : list written) : bool :=
  existsb (fun w => if str_eq_dec (w_section w) (lit "BASE") then true
                    else false) out.

Definition has_token (lines : list str) : bool :=
  existsb (fun l => match token_of l with Some _ => true | None => false end)
    lines.

(** The lines of all output files, in emission order. *)
Definition emitted_lines (out : list written) : list str :=
  concat (map w_lines out).

Definition count_meaningful (lines : list str) : nat :=
  length (filter is_meaningful_line lines).

(** The pre-scan finds no section token on the raw line. *)
Definition no_raw_token (line : str) : bool :=
  negb (re_test SECTION_TOKEN_RE line).

(** The condition of the split heuristic: the first line on which the
    pre-scan finds a section token is not the first line of the document,
    and at least [content_threshold] meaningful lines come before it. *)
Definition long_lead_in (content_threshold : nat) (lines : list str) : Prop :=
  exists pre l post,
    lines = pre ++ l :: post
    /\ forallb no_raw_token pre = true
    /\ re_test SECTION_TOKEN_RE l = true
    /\ pre <> []
    /\ content_threshold <= count_meaningful pre.

(** What the scan knows about the section tokens met so far. *)
Definition tokens_ok (split : bool) (pre : list str) (st : state) : Prop :=
  (section_counter st =? 0) = negb (has_token pre)
  /\ has_base (output_files st) = split && has_token pre
  /\ current_section st <> lit "BASE".

(** ** The batch *)

(** An input file: its stem and what [read_text] followed by
    [splitlines] yields, [None] when reading raises. *)
Record input_file := {
  stem_of : str;
  read_lines : option (list str)
}.

Inductive error :=
| ReadError (stem : str)
| WriteError (path : str).

(** What [process_all_files] prints. *)
Inductive report :=
| NoFiles
| Found (n : nat)
| FileDone (stem : str) (n : nat)
| Done (total : nat).

(** The output directory (the writes done so far, oldest first) and the
    lines printed so far. *)
Record world := {
  disk : list written;
  printed : list report
}.

Inductive outcome (A : Type) :=
| Returned (a : A)
| Raised (e : error).
Arguments Returned {A} a.
Arguments Raised {A} e.

(** A computation that may write, print and raise. *)
Definition io (A : Type) := world -> outcome A * world.

Definition ret {A} (a : A) : io A := fun w => (Returned a, w).
Definition raise {A} (e : error) : io A := fun w => (Raised e, w).
Definition io_bind {A B} (x : io A) (k : A -> io B) : io B := fun w =>
  match x w with
  | (Returned a, w') => k a w'
  | (Raised e, w') => (Raised e, w')
  end.
Definition print (r : report) : io unit := fun w =>
  (Returned tt, {| disk := disk w; printed := printed w ++ [r] |}).

(** [output_path.write_text(content)]; [writable] tells for which paths it
    succeeds. *)
Definition write_text (writable : str -> bool) (f : written) : io unit :=
  fun w =>
    if writable (w_path f)
    then (Returned tt, {| disk := disk w ++ [f]; printed := printed w |})
    else (Raised (WriteError (w_path f)), w).

Fixpoint write_all (writable : str -> bool) (fs : list written) : io unit :=
  match fs with
  | [] => ret tt
  | f :: rest =>
      io_bind (write_text writable f) (fun _ => write_all writable rest)
  end.

(** [process_file] with its effects: the read, then the writes that the
    scan makes, in the order it makes them; an exception ends it at once.
    The scan never reads back what it wrote, so the writes are those of
    the pure [process_file]. *)
Definition process_file_io (writable : str -> bool) (content_threshold : nat)
    (f : input_file) : io (list written) :=
  match read_lines f with
  | None => raise (ReadError (stem_of f))
  | Some lines =>
      let out := process_file (stem_of f) content_threshold lines in
      io_bind (write_all writable out) (fun _ => ret out)
  end.

(** The [for txt_file in txt_files] loop. *)
Fixpoint process_loop (writable : str -> bool) (content_threshold : nat)
    (txt_files : list input_file) (total_outputs : nat) : io nat :=
  match txt_files with
  | [] => ret total_outputs
  | f :: rest =>
      io_bind (process_file_io writable content_threshold f)
        (fun output_files =>
           io_bind (print (FileDone (stem_of f) (length output_files)))
             (fun _ =>
                process_loop writable content_threshold rest
                  (total_outputs + length output_files)))
  end.

(** [process_all_files] over the sorted [*.txt] files of the input
    directory. *)
Definition process_all_files (writable : str -> bool)
    (content_threshold : nat) (txt_files : list input_file) : io unit :=
  match txt_files with
  | [] => print NoFiles
  | _ :: _ =>
      io_bind (print (Found (length txt_files)))
        (fun _ =>
           io_bind (process_loop writable content_threshold txt_files 0)
             (fun total_outputs => print (Done total_outputs)))
  end.

Definition empty_world : world := {| disk := []; printed := [] |}.

(** What [process_file] writes for [f] when nothing fails. *)
Definition outputs_of (content_threshold : nat) (f : input_file)
    : list written :=
  match read_lines f with
  | Some lines => process_file (stem_of f) content_threshold lines
  | None => []
  end.

(** The exception that processing [f] raises, if any: the read, or the
    first write that does not succeed. *)
Definition first_error (writable : str -> bool) (content_threshold : nat)
    (f : input_file) : option error :=
  match read_lines f with
  | None => Some (ReadError (stem_of f))
  | Some lines =>
      match find (fun w => negb (writable (w_path w)))
              (process_file (stem_of f) content_threshold lines) with
      | Some w => Some (WriteError (w_path w))
      | None => None
      end
  end.

Definition succeeds (writable : str -> bool) (content_threshold : nat)
    (f : input_file) : bool :=
  match first_error writable content_threshold f with
  | None => true
  | Some _ => false
  end.

(** The writes done before the first one that fails. *)
Fixpoint written_before (writable : str -> bool) (fs : list written)
    : list written :=
  match fs with
  | [] => []
  | w :: rest =>
      if writable (w_path w) then w :: written_before writable rest else []
  end.

(** The line printed after [f] has been processed. *)
Definition done (content_threshold : nat) (f : input_file) : report :=
  FileDone (stem_of f) (length (outputs_of content_threshold f)).

(** ** Patterns and buffers *)

(** The buffer holds no line with a bare page marker. *)
Definition clean_buffer (lines : list str) : bool :=
  forallb (fun l => negb (re_test BRACKET_PAGE_RE l)) lines.

(** A pattern whose matches are an opening bracket followed by text
    without one, and depend on nothing after them. *)
Definition bracket_token {G} (m : matcher G) : Prop :=
  (forall c s, c <> LBRACKET -> m (c :: s) = None)
  /\ m [] = None
  /\ forall s g rest, m s = Some (g, rest) ->
       exists t, s = LBRACKET :: t ++ rest
                 /\ ~ In LBRACKET t
                 /\ forall x, m (LBRACKET :: t ++ x) = Some (g, x).

(** * The claims of the specification, as they are worded *)

(** C1 as worded: a line handled while no section has been opened
    ([section_counter == 0]) reaches the buffer with its bare markers
    untouched. *)
Definition C1_as_worded (stem : str) (content_threshold : nat)
    (lines : list str) : Prop :=
  forall pre line post, lines = pre ++ line :: post ->
    let split := should_split content_threshold lines in
    let st := run stem split pre in
    let st1 := after_token stem split st line in
    section_counter st1 = 0 ->
    current_lines (step stem split st line)
      = current_lines st1 ++ [processed line].

(** C5 as worded: the buffer left open at the end of the document is
    written, empty or not. *)
Definition C5_as_worded (stem : str) (content_threshold : nat)
    (lines : list str) : Prop :=
  let st := scan stem content_threshold lines in
  process_file stem content_threshold lines
    = output_files st
        ++ [write_section_file stem (current_section st) (current_lines st)].

(** C6 as worded: a lead-in file is written for the section BASE exactly
    when the condition of the split heuristic holds. *)
Definition C6_as_worded (stem : str) (content_threshold : nat)
    (lines : list str) : Prop :=
  has_base (process_file stem content_threshold lines) = true
  <-> long_lead_in content_threshold lines.

(** C7 as worded: whatever happens to the other files of the batch,
    every file that can be read and written is processed, that is, its
    output files are on the disk when [process_all_files] is over. *)
Definition C7_as_worded (writable : str -> bool) (content_threshold : nat)
    (txt_files : list input_file) : Prop :=
  forall f, In f txt_files ->
    succeeds writable content_threshold f = true ->
    forall w, In w (outputs_of content_threshold f) ->
      In w (disk (snd (process_all_files writable content_threshold
                         txt_files empty_world))).

(** C8 as worded: collapsing the text variants of a collapsed line
    changes nothing. *)
Definition C8_as_worded (line : str) : Prop :=
  collapse_variants (collapse_variants line) = collapse_variants line.


(** C10 as worded: when the pattern of section tokens matches on no line
    of the document, the heuristic does not fire and the output is no file
    for an empty document, and otherwise one file, named after the stem
    alone, that holds every processed line. *)
Definition C10_as_worded (stem : str) (content_threshold : nat)
    (lines : list str) : Prop :=
  forallb no_raw_token lines = true ->
  should_split content_threshold lines = false
  /\ match lines with
     | [] => process_file stem content_threshold lines = []
     | _ :: _ =>
         exists w, process_file stem content_threshold lines = [w]
                   /\ w_path w = stem ++ lit ".txt"
                   /\ w_lines w = number_lines 1 lines
     end.


(** * Further notions *)

(** A pattern that can only match at the character [h]. *)
Definition heads {G} (m : matcher G) (h : char) : Prop :=
  forall c s, c <> h -> m (c :: s) = None.

(** Text without an opening brace or bracket: no pattern matches in it. *)
Definition plain (s : str) : bool :=
  negb (has_char LBRACE s) && negb (has_char LBRACKET s).

(** The section tokens that [process_line] extracts from the lines of a
    document, in order. *)
Definition tokens (lines : list str) : list str :=
  flat_map (fun l => match token_of l with Some t => [t] | None => [] end)
    lines.

(** The text of a section token: "D", the digits, the optional letter. *)
Definition token_text (num : str) (letter : option char) : str :=
  UPPER_D :: num ++ match letter with Some l => [l] | None => [] end.

(** Whether a section is one of the two that are written to the file
    named after the stem alone. *)
Definition unnamed_section (section : str) : bool :=
  if str_eq_dec section (lit "UNKNOWN") then true
  else if str_eq_dec section (lit "BASE") then true
  else false.

(** A piece of a line that carries no content: white space, a bare page
    marker or a dotted page marker. *)
Definition filler (item : str) : bool :=
  forallb is_space item
  || fullmatch BRACKET_PAGE_RE item
  || fullmatch BRACKET_WITH_DOT_RE item.

(** Text made of white space and dotted markers. *)
Inductive filler_text : str -> Prop :=
| ft_nil : filler_text []
| ft_space (c : char) (y : str) :
    is_space c = true -> filler_text y -> filler_text (c :: y)
| ft_dotted (mk y : str) :
    fullmatch BRACKET_WITH_DOT_RE mk = true -> filler_text y ->
    filler_text (mk ++ y).

(** The sections under which [process_file] writes, when a section token
    has been met: BASE first if the heuristic holds, then the tokens. *)
Definition sections_met (split : bool) (pre : list str) : list str :=
  if has_token pre
  then (if split then [lit "BASE"] else []) ++ tokens pre
  else [lit "UNKNOWN"].

Definition no_marker (line : str) : bool := negb (marker_flag line).





Definition SLASH : char := 47%N.     (* / *)

(** The text of a section token, as [process_line] builds it: "D", one
    or more digits, at most one lower-case letter. *)
Definition is_token_text (s : str) : bool :=
  match s with
  | c :: r =>
      (c =? UPPER_D)%N
      && (let (ds, rest) := span is_digit r in
          match ds with [] => false | _ :: _ => true end
          && match rest with
             | [] => true
             | [l] => is_lower l
             | _ :: _ :: _ => false
             end)
  | [] => false
  end.

(** The sections that [process_file] passes to [write_section_file]:
    "UNKNOWN", "BASE" and the section tokens. *)
Definition passed_section (s : str) : bool :=
  unnamed_section s || is_token_text s.
(** * Properties of the pattern layer *)

(** ** [span] *)

Lemma span_app (p : char -> bool) (s a r : str) :
  span p s = (a, r) -> s = a ++ r.
Proof.
  revert a r; induction s as [|c s IH]; simpl; intros a r H.
  - now inversion H.
  - destruct (p c).
    + destruct (span p s) as [a' r'] eqn:E. inversion H; subst.
      simpl. f_equal. now apply IH.
    + now inversion H.
Qed.

Lemma span_all (p : char -> bool) (s a r : str) :
  span p s = (a, r) -> forallb p a = true.
Proof.
  revert a r; induction s as [|c s IH]; simpl; intros a r H.
  - now inversion H.
  - destruct (p c) eqn:Hc.
    + destruct (span p s) as [a' r'] eqn:E. inversion H; subst.
      simpl. rewrite Hc. simpl. eapply IH; eauto.
    + now inversion H.
Qed.


Lemma span_stops (p : char -> bool) (s a r : str) :
  span p s = (a, r) -> stops p r.
Proof.
  revert a r; induction s as [|c s IH]; simpl; intros a r H.
  - inversion H; simpl; auto.
  - destruct (p c) eqn:Hc.
    + destruct (span p s) as [a' r'] eqn:E. inversion H; subst. eauto.
    + inversion H; subst. simpl. auto.
Qed.

Lemma span_intro (p : char -> bool) (a r : str) :
  forallb p a = true -> stops p r -> span p (a ++ r) = (a, r).
Proof.
  induction a as [|c a IH]; simpl; intros Ha Hr.
  - destruct r as [|x r]; simpl in *; auto. now rewrite Hr.
  - apply andb_prop in Ha as [Hc Ha]. rewrite Hc, IH; auto.
Qed.

Lemma plus_some (p : char -> bool) (s a r : str) :
  plus p s = Some (a, r) ->
  s = a ++ r /\ a <> [] /\ forallb p a = true /\ stops p r.
Proof.
  unfold plus. destruct (span p s) as [a' r'] eqn:E.
  destruct a' as [|c a']; [discriminate|].
  intros H; inversion H; subst. repeat split.
  - now apply span_app in E.
  - discriminate.
  - now apply span_all in E.
  - now apply span_stops in E.
Qed.

Lemma plus_intro (p : char -> bool) (a r : str) :
  a <> [] -> forallb p a = true -> stops p r -> plus p (a ++ r) = Some (a, r).
Proof.
  intros Hne Ha Hr. unfold plus. rewrite span_intro by assumption.
  destruct a; [congruence | reflexivity].
Qed.

Lemma expect_some (c : char) (s r : str) :
  expect c s = Some r <-> s = c :: r.
Proof.
  unfold expect. destruct s as [|x s]; split; intros H; try discriminate.
  - destruct (N.eqb_spec x c); inversion H; subst; reflexivity.
  - inversion H; subst. now rewrite N.eqb_refl.
Qed.

Lemma one_some (p : char -> bool) (s : str) (x : char) (r : str) :
  one p s = Some (x, r) <-> s = x :: r /\ p x = true.
Proof.
  unfold one. destruct s as [|y s]; split; intros H; try discriminate.
  - destruct H; discriminate.
  - destruct (p y) eqn:Hy; inversion H; subst; auto.
  - destruct H as [H Hx]; inversion H; subst. now rewrite Hx.
Qed.

(** ** The shape of a match, pattern by pattern

    Each matcher succeeds exactly on the texts that begin with a word of
    its regular expression, whichever way the word is cut: the greedy
    runs lose no match that backtracking would find. *)


Ltac bind_inv H :=
  repeat match type of H with
  | bind ?e _ = Some _ =>
      let E := fresh "E" in
      destruct e as [?|] eqn:E; simpl in H; [|discriminate H]
  | (let '(_, _) := ?x in _) = Some _ => destruct x; simpl in H
  | (let (_, _) := ?x in _) = Some _ => destruct x; simpl in H
  end.

Lemma lower_not_digit (c : char) : is_lower c = true -> is_digit c = false.
Proof.
  intros Hl. unfold is_lower in Hl. unfold is_digit.
  destruct (existsb (in_range c) nd_ranges) eqn:Hd; auto.
  exfalso. apply existsb_exists in Hd as (r & Hin & Hr).
  apply andb_prop in Hl as [H1 H2].
  apply N.leb_le in H1, H2. unfold in_range in Hr.
  apply andb_prop in Hr as [H3 H4]. apply N.leb_le in H3, H4.
  simpl in Hin.
  repeat (destruct Hin as [<- | Hin]; [simpl in *; lia|]). exact Hin.
Qed.

Ltac side := first [assumption | reflexivity | now apply lower_not_digit].

Lemma BRACKET_PAGE_RE_some (s rest : str) (g : unit) :
  BRACKET_PAGE_RE s = Some (g, rest) <->
  exists ds l, s = LBRACKET :: ds ++ l :: RBRACKET :: rest
               /\ ds <> [] /\ all is_digit ds /\ is_lower l = true.
Proof.
  split.
  - unfold BRACKET_PAGE_RE. intros H. bind_inv H. inversion H; subst.
    apply expect_some in E, E2. apply plus_some in E0 as (-> & Hne & Ha & _).
    apply one_some in E1 as [-> Hl]. subst. eauto 8.
  - intros (ds & l & -> & Hne & Ha & Hl). destruct g.
    unfold BRACKET_PAGE_RE.
    replace (expect LBRACKET (LBRACKET :: ds ++ l :: RBRACKET :: rest))
      with (Some (ds ++ l :: RBRACKET :: rest)) by (symmetry; now apply expect_some).
    cbn [bind]. rewrite plus_intro by side.
    cbn [bind one]. rewrite Hl. cbn [bind].
    replace (expect RBRACKET (RBRACKET :: rest)) with (Some rest)
      by (symmetry; now apply expect_some).
    reflexivity.
Qed.

Lemma BRACKET_WITH_DOT_RE_some (s rest : str) (g : unit) :
  BRACKET_WITH_DOT_RE s = Some (g, rest) <->
  exists ds l es, s = LBRACKET :: ds ++ l :: DOT :: es ++ RBRACKET :: rest
               /\ ds <> [] /\ all is_digit ds /\ is_lower l = true
               /\ es <> [] /\ all is_digit es.
Proof.
  split.
  - unfold BRACKET_WITH_DOT_RE. intros H. bind_inv H. inversion H; subst.
    apply expect_some in E, E2, E4.
    apply plus_some in E0 as (-> & Hne & Ha & _).
    apply plus_some in E3 as (-> & Hne' & Ha' & _).
    apply one_some in E1 as [-> Hl]. subst. eauto 12.
  - intros (ds & l & es & -> & Hne & Ha & Hl & Hne' & Ha'). destruct g.
    unfold BRACKET_WITH_DOT_RE.
    replace (expect LBRACKET (LBRACKET :: ds ++ l :: DOT :: es ++ RBRACKET :: rest))
      with (Some (ds ++ l :: DOT :: es ++ RBRACKET :: rest))
      by (symmetry; now apply expect_some).
    cbn [bind]. rewrite plus_intro by side.
    cbn [bind one]. rewrite Hl. cbn [bind].
    replace (expect DOT (DOT :: es ++ RBRACKET :: rest))
      with (Some (es ++ RBRACKET :: rest)) by (symmetry; now apply expect_some).
    cbn [bind]. rewrite plus_intro by side.
    cbn [bind].
    replace (expect RBRACKET (RBRACKET :: rest)) with (Some rest)
      by (symmetry; now apply expect_some).
    reflexivity.
Qed.

Lemma TEXT_VARIANT_RE_some (s rest a b : str) :
  TEXT_VARIANT_RE s = Some ((a, b), rest) <->
  s = LBRACE :: a ++ COMMA :: b ++ RBRACE :: rest
  /\ a <> [] /\ all not_comma_rbrace a /\ b <> [] /\ all not_rbrace b.
Proof.
  split.
  - unfold TEXT_VARIANT_RE. intros H. bind_inv H. inversion H; subst.
    apply expect_some in E, E1, E3.
    apply plus_some in E0 as (-> & Hne & Ha & _).
    apply plus_some in E2 as (-> & Hne' & Ha' & _). subst. auto.
  - intros (-> & Hne & Ha & Hne' & Ha').
    unfold TEXT_VARIANT_RE.
    replace (expect LBRACE (LBRACE :: a ++ COMMA :: b ++ RBRACE :: rest))
      with (Some (a ++ COMMA :: b ++ RBRACE :: rest))
      by (symmetry; now apply expect_some).
    cbn [bind]. rewrite plus_intro by side.
    cbn [bind].
    replace (expect COMMA (COMMA :: b ++ RBRACE :: rest))
      with (Some (b ++ RBRACE :: rest)) by (symmetry; now apply expect_some).
    cbn [bind]. rewrite plus_intro by side.
    cbn [bind].
    replace (expect RBRACE (RBRACE :: rest)) with (Some rest)
      by (symmetry; now apply expect_some).
    reflexivity.
Qed.

Lemma SECTION_DASH_TOKEN_RE_some (s rest : str) (g : unit) :
  SECTION_DASH_TOKEN_RE s = Some (g, rest) <->
  exists ds es, s = LBRACE :: UPPER_D :: ds ++ DASH :: es ++ RBRACE :: rest
                /\ ds <> [] /\ all is_digit ds
                /\ es <> [] /\ all is_digit es.
Proof.
  split.
  - unfold SECTION_DASH_TOKEN_RE. intros H. bind_inv H. inversion H; subst.
    apply expect_some in E, E0, E2, E4.
    apply plus_some in E1 as (-> & Hne & Ha & _).
    apply plus_some in E3 as (-> & Hne' & Ha' & _). subst. eauto 10.
  - intros (ds & es & -> & Hne & Ha & Hne' & Ha'). destruct g.
    unfold SECTION_DASH_TOKEN_RE.
    replace (expect LBRACE
               (LBRACE :: UPPER_D :: ds ++ DASH :: es ++ RBRACE :: rest))
      with (Some (UPPER_D :: ds ++ DASH :: es ++ RBRACE :: rest))
      by (symmetry; now apply expect_some).
    cbn [bind].
    replace (expect UPPER_D (UPPER_D :: ds ++ DASH :: es ++ RBRACE :: rest))
      with (Some (ds ++ DASH :: es ++ RBRACE :: rest))
      by (symmetry; now apply expect_some).
    cbn [bind]. rewrite plus_intro by side. cbn [bind].
    replace (expect DASH (DASH :: es ++ RBRACE :: rest))
      with (Some (es ++ RBRACE :: rest)) by (symmetry; now apply expect_some).
    cbn [bind]. rewrite plus_intro by side. cbn [bind].
    replace (expect RBRACE (RBRACE :: rest)) with (Some rest)
      by (symmetry; now apply expect_some).
    reflexivity.
Qed.

Lemma SECTION_TOKEN_RE_some (s rest num : str) (letter : option char) :
  SECTION_TOKEN_RE s = Some ((num, letter), rest) <->
  num <> [] /\ all is_digit num
  /\ match letter with
     | Some l => is_lower l = true
                 /\ s = LBRACE :: UPPER_D :: num ++ l :: RBRACE :: rest
     | None => s = LBRACE :: UPPER_D :: num ++ RBRACE :: rest
     end.
Proof.
  split.
  - unfold SECTION_TOKEN_RE. intros H.
    destruct (expect LBRACE s) as [s1|] eqn:E1; [|discriminate].
    cbn [bind] in H.
    destruct (expect UPPER_D s1) as [s2|] eqn:E2; [|discriminate].
    cbn [bind] in H.
    destruct (plus is_digit s2) as [[n s3]|] eqn:E3; [|discriminate].
    cbn [bind] in H.
    destruct (opt_lower s3) as [o s4] eqn:E4.
    destruct (expect RBRACE s4) as [s5|] eqn:E5; [|discriminate].
    cbn [bind] in H. inversion H; subst.
    apply expect_some in E1, E2, E5.
    apply plus_some in E3 as (-> & Hne & Ha & _). subst.
    repeat split; auto.
    unfold opt_lower in E4. destruct s3 as [|x s3].
    + inversion E4.
    + destruct (is_lower x) eqn:Hx; inversion E4; subst; auto.
  - intros (Hne & Ha & H). unfold SECTION_TOKEN_RE.
    destruct letter as [l|]; [destruct H as [Hl ->] | subst s].
    + replace (expect LBRACE
                 (LBRACE :: UPPER_D :: num ++ l :: RBRACE :: rest))
        with (Some (UPPER_D :: num ++ l :: RBRACE :: rest))
        by (symmetry; now apply expect_some).
      cbn [bind].
      replace (expect UPPER_D (UPPER_D :: num ++ l :: RBRACE :: rest))
        with (Some (num ++ l :: RBRACE :: rest))
        by (symmetry; now apply expect_some).
      cbn [bind]. rewrite plus_intro by side. cbn [bind opt_lower].
      rewrite Hl.
      replace (expect RBRACE (RBRACE :: rest)) with (Some rest)
        by (symmetry; now apply expect_some).
      reflexivity.
    + replace (expect LBRACE (LBRACE :: UPPER_D :: num ++ RBRACE :: rest))
        with (Some (UPPER_D :: num ++ RBRACE :: rest))
        by (symmetry; now apply expect_some).
      cbn [bind].
      replace (expect UPPER_D (UPPER_D :: num ++ RBRACE :: rest))
        with (Some (num ++ RBRACE :: rest))
        by (symmetry; now apply expect_some).
      cbn [bind]. rewrite plus_intro by side. cbn [bind opt_lower].
      replace (is_lower RBRACE) with false by reflexivity.
      replace (expect RBRACE (RBRACE :: rest)) with (Some rest)
        by (symmetry; now apply expect_some).
      reflexivity.
Qed.

(** ** Every pattern consumes at least one character *)


Lemma expect_length (c : char) (s r : str) :
  expect c s = Some r -> length s = S (length r).
Proof. intros H. apply expect_some in H. now subst. Qed.

Lemma plus_length (p : char -> bool) (s a r : str) :
  plus p s = Some (a, r) -> length r < length s.
Proof.
  intros H. apply plus_some in H as (-> & Hne & _).
  rewrite length_app. destruct a; [congruence | simpl; lia].
Qed.

Lemma one_length (p : char -> bool) (s : str) (x : char) (r : str) :
  one p s = Some (x, r) -> length s = S (length r).
Proof. intros H. apply one_some in H as [-> _]. reflexivity. Qed.

Lemma opt_lower_length (s r : str) (o : option char) :
  opt_lower s = (o, r) -> length r <= length s.
Proof.
  unfold opt_lower. destruct s as [|x s]; [|destruct (is_lower x)];
    intros H; inversion H; subst; simpl; lia.
Qed.

Ltac lengths :=
  repeat match goal with
  | H : expect _ _ = Some _ |- _ => apply expect_length in H
  | H : plus _ _ = Some _ |- _ => apply plus_length in H
  | H : one _ _ = Some _ |- _ => apply one_length in H
  | H : opt_lower _ = _ |- _ => apply opt_lower_length in H
  end.

Lemma SECTION_TOKEN_RE_consumes : consumes SECTION_TOKEN_RE.
Proof.
  intros s g rest H. unfold SECTION_TOKEN_RE in H.
  destruct (expect LBRACE s) as [s1|] eqn:E1; [|discriminate]. cbn [bind] in H.
  destruct (expect UPPER_D s1) as [s2|] eqn:E2; [|discriminate]. cbn [bind] in H.
  destruct (plus is_digit s2) as [[num s3]|] eqn:E3; [|discriminate].
  cbn [bind] in H.
  destruct (opt_lower s3) as [letter s4] eqn:E4.
  destruct (expect RBRACE s4) as [s5|] eqn:E5; [|discriminate]. cbn [bind] in H.
  inversion H; subst. lengths. lia.
Qed.

Lemma SECTION_DASH_TOKEN_RE_consumes : consumes SECTION_DASH_TOKEN_RE.
Proof.
  intros s g rest H. unfold SECTION_DASH_TOKEN_RE in H. bind_inv H.
  inversion H; subst. lengths. lia.
Qed.

Lemma BRACKET_WITH_DOT_RE_consumes : consumes BRACKET_WITH_DOT_RE.
Proof.
  intros s g rest H. unfold BRACKET_WITH_DOT_RE in H. bind_inv H.
  inversion H; subst. lengths. lia.
Qed.

Lemma BRACKET_PAGE_RE_consumes : consumes BRACKET_PAGE_RE.
Proof.
  intros s g rest H. unfold BRACKET_PAGE_RE in H. bind_inv H.
  inversion H; subst. lengths. lia.
Qed.

Lemma TEXT_VARIANT_RE_consumes : consumes TEXT_VARIANT_RE.
Proof.
  intros s g rest H. unfold TEXT_VARIANT_RE in H. bind_inv H.
  inversion H; subst. lengths. lia.
Qed.

#[local] Hint Resolve SECTION_TOKEN_RE_consumes SECTION_DASH_TOKEN_RE_consumes
  BRACKET_WITH_DOT_RE_consumes BRACKET_PAGE_RE_consumes
  TEXT_VARIANT_RE_consumes : core.

(** ** [sub]: enough fuel, and the equations of the scan *)

Section Sub.
Context {G St : Type}.
Variable m : matcher G.
Variable f : G -> St -> str * St.
Hypothesis m_consumes : consumes m.

Lemma re_sub_fuel_enough (n n' : nat) (s : str) (st : St) :
  length s <= n -> length s <= n' ->
  re_sub_fuel m f n s st = re_sub_fuel m f n' s st.
Proof.
  revert n' s st. induction n as [|n IH]; intros n' s st Hn Hn'.
  - destruct s; [|simpl in Hn; lia]. destruct n'; reflexivity.
  - destruct n' as [|n'].
    + destruct s; [reflexivity | simpl in Hn'; lia].
    + simpl. destruct s as [|c s]; [reflexivity|].
      destruct (m (c :: s)) as [[g rest]|] eqn:E.
      * apply m_consumes in E. simpl in *.
        destruct (f g st) as [r st1].
        rewrite (IH n' rest st1) by lia. reflexivity.
      * simpl in *. rewrite (IH n' s st) by lia. reflexivity.
Qed.

Lemma re_sub_st_nil (st : St) : re_sub_st m f [] st = ([], st).
Proof. reflexivity. Qed.

Lemma re_sub_st_hit (s : str) (g : G) (rest : str) (st : St) :
  m s = Some (g, rest) ->
  re_sub_st m f s st =
    (fst (f g st) ++ fst (re_sub_st m f rest (snd (f g st))),
     snd (re_sub_st m f rest (snd (f g st)))).
Proof.
  intros E. unfold re_sub_st. destruct s as [|c s].
  - apply m_consumes in E. simpl in E. lia.
  - simpl. rewrite E. pose proof (m_consumes E) as Hlen. simpl in Hlen.
    destruct (f g st) as [r st1]. simpl.
    rewrite (re_sub_fuel_enough (n := length s) (n' := length rest)) by lia.
    destruct (re_sub_fuel m f (length rest) rest st1). reflexivity.
Qed.

Lemma re_sub_st_miss (c : char) (s : str) (st : St) :
  m (c :: s) = None ->
  re_sub_st m f (c :: s) st =
    (c :: fst (re_sub_st m f s st), snd (re_sub_st m f s st)).
Proof.
  intros E. unfold re_sub_st. simpl. rewrite E.
  destruct (re_sub_fuel m f (length s) s st). reflexivity.
Qed.

(** Induction along the scan of [sub]. *)
Lemma scan_ind (P : str -> Prop) :
  P [] ->
  (forall c s, m (c :: s) = None -> P s -> P (c :: s)) ->
  (forall s g rest, m s = Some (g, rest) -> P rest -> P s) ->
  forall s, P s.
Proof.
  intros Hnil Hmiss Hhit s.
  remember (length s) as n eqn:Hn. revert s Hn.
  induction n as [n IH] using lt_wf_ind. intros s Hn.
  destruct s as [|c s]; [exact Hnil|].
  destruct (m (c :: s)) as [[g rest]|] eqn:E.
  - apply (Hhit _ _ _ E). apply (IH (length rest)); auto.
    apply m_consumes in E. lia.
  - apply Hmiss; auto. apply (IH (length s)); auto. simpl in Hn. lia.
Qed.
End Sub.

Section PureSub.
Context {G : Type}.
Variable m : matcher G.
Variable r : G -> str.
Hypothesis m_consumes : consumes m.

Lemma re_sub_nil : re_sub m r [] = [].
Proof. reflexivity. Qed.

Lemma re_sub_hit (s : str) (g : G) (rest : str) :
  m s = Some (g, rest) -> re_sub m r s = r g ++ re_sub m r rest.
Proof.
  intros E. unfold re_sub.
  rewrite re_sub_st_hit with (g := g) (rest := rest) by assumption.
  reflexivity.
Qed.

Lemma re_sub_miss (c : char) (s : str) :
  m (c :: s) = None -> re_sub m r (c :: s) = c :: re_sub m r s.
Proof.
  intros E. unfold re_sub. rewrite re_sub_st_miss by assumption.
  reflexivity.
Qed.

(** Without a match there is nothing to replace. *)
Lemma re_sub_no_match (s : str) : re_search m s = None -> re_sub m r s = s.
Proof.
  induction s as [|c s IH]; [reflexivity|].
  simpl. destruct (m (c :: s)) eqn:E; [discriminate|].
  intros H. rewrite re_sub_miss by assumption. now rewrite IH.
Qed.
End PureSub.

(** ** The matches that [sub] replaces *)


Section Matches.
Context {G : Type}.
Variable m : matcher G.
Hypothesis m_consumes : consumes m.

Lemma collect_acc (s : str) (acc : list G) :
  snd (re_sub_st m (@collect G) s acc)
= acc ++ snd (re_sub_st m (@collect G) s []).
Proof.
  revert acc. induction s as [| c s E IH | s g rest E IH]
    using (scan_ind m_consumes); intros acc.
  - simpl. now rewrite app_nil_r.
  - rewrite !re_sub_st_miss by assumption. simpl. apply IH.
  - rewrite re_sub_st_hit with (st := acc) (g := g) (rest := rest)
      by assumption.
    rewrite re_sub_st_hit with (st := []) (g := g) (rest := rest)
      by assumption.
    simpl. rewrite IH. rewrite (IH [g]). now rewrite app_assoc.
Qed.

Lemma re_matches_nil : re_matches m [] = [].
Proof. reflexivity. Qed.

Lemma re_matches_miss (c : char) (s : str) :
  m (c :: s) = None -> re_matches m (c :: s) = re_matches m s.
Proof.
  intros E. unfold re_matches.
  now rewrite re_sub_st_miss by assumption.
Qed.

Lemma re_matches_hit (s : str) (g : G) (rest : str) :
  m s = Some (g, rest) -> re_matches m s = g :: re_matches m rest.
Proof.
  intros E. unfold re_matches.
  rewrite re_sub_st_hit with (g := g) (rest := rest) by assumption.
  simpl. now rewrite collect_acc.
Qed.

Lemma re_search_none_matches (s : str) :
  re_search m s = None -> re_matches m s = [].
Proof.
  induction s as [|c s IH]; [reflexivity|].
  simpl. destruct (m (c :: s)) eqn:E; [discriminate|].
  intros H. rewrite re_matches_miss by assumption. auto.
Qed.
End Matches.

(** ** Text-variant collapse (step 1 of [process_line]) *)




Lemma TEXT_VARIANT_RE_head (c : char) (s : str) :
  c <> LBRACE -> TEXT_VARIANT_RE (c :: s) = None.
Proof.
  intros Hc. unfold TEXT_VARIANT_RE. simpl.
  destruct (N.eqb_spec c LBRACE); [contradiction | reflexivity].
Qed.

Lemma has_char_false (c : char) (s : str) :
  has_char c s = false <-> ~ In c s.
Proof.
  unfold has_char. split.
  - intros H Hin. assert (existsb (N.eqb c) s = true); [|congruence].
    apply existsb_exists. exists c. split; auto. apply N.eqb_refl.
  - intros H. destruct (existsb (N.eqb c) s) eqn:E; auto.
    apply existsb_exists in E as (x & Hin & Hx).
    apply N.eqb_eq in Hx. subst. contradiction.
Qed.

Lemma all_not_in (p : char -> bool) (c : char) (s : str) :
  all p s -> p c = false -> ~ In c s.
Proof.
  unfold all. intros Ha Hc Hin.
  rewrite forallb_forall in Ha. apply Ha in Hin. congruence.
Qed.

(** A match needs a closing brace. *)
Lemma variant_needs_rbrace (s : str) :
  ~ In RBRACE s -> re_search TEXT_VARIANT_RE s = None.
Proof.
  induction s as [|c s IH]; intros Hn.
  - reflexivity.
  - simpl. destruct (TEXT_VARIANT_RE (c :: s)) as [[[a b] rest]|] eqn:E.
    + exfalso. apply TEXT_VARIANT_RE_some in E as (E & _).
      apply Hn. rewrite E. right. apply in_or_app. right. right.
      apply in_or_app. right. now left.
    + apply IH. intros H. apply Hn. now right.
Qed.


Lemma quiet_tail (c : char) (u r : str) : quiet (c :: u) r -> quiet u r.
Proof.
  intros H u1 u2 -> Hne. apply (H (c :: u1) u2); auto.
Qed.

Lemma collapse_quiet (u r : str) :
  quiet u r -> collapse_variants (u ++ r) = u ++ collapse_variants r.
Proof.
  induction u as [|c u IH]; intros H; [reflexivity|].
  simpl. unfold collapse_variants in *.
  rewrite re_sub_miss; auto.
  - rewrite IH; auto. eapply quiet_tail; eauto.
  - apply (H [] (c :: u)); [reflexivity | discriminate].
Qed.

Lemma all_app_inv (p : char -> bool) (u v : str) :
  all p (u ++ v) -> all p u /\ all p v.
Proof. unfold all. rewrite forallb_app. apply andb_prop. Qed.

(** A left side that is not followed by a comma hides no match. *)
Lemma quiet_left_no_comma (a r : str) :
  all not_comma_rbrace a -> stops not_comma_rbrace r ->
  match r with c :: _ => c <> COMMA | [] => True end ->
  quiet a r.
Proof.
  intros Ha Hr Hc u1 u2 -> Hne.
  apply all_app_inv in Ha as [_ Ha2].
  destruct u2 as [|x u2]; [congruence|].
  destruct (N.eq_dec x LBRACE) as [->|Hx];
    [|now apply TEXT_VARIANT_RE_head].
  destruct (TEXT_VARIANT_RE ((LBRACE :: u2) ++ r)) as [[[a' b'] rest]|] eqn:E;
    [exfalso | reflexivity].
  apply TEXT_VARIANT_RE_some in E as (E & Hne' & Ha' & _).
  simpl in E. injection E as E.
  unfold all in Ha2. simpl in Ha2.
  assert (Hs : span not_comma_rbrace (u2 ++ r) = (u2, r))
    by (apply span_intro; auto).
  rewrite E in Hs. rewrite span_intro in Hs; auto; [|reflexivity].
  injection Hs as _ Hs. subst r. simpl in Hc. congruence.
Qed.


(** A left side followed by a comma and no right side hides no match. *)
Lemma quiet_left_dead_comma (a x : str) :
  all not_comma_rbrace a -> dead x -> quiet a (COMMA :: x).
Proof.
  intros Ha Hx u1 u2 -> Hne.
  apply all_app_inv in Ha as [_ Ha2].
  destruct u2 as [|c u2]; [congruence|].
  destruct (N.eq_dec c LBRACE) as [->|Hc];
    [|now apply TEXT_VARIANT_RE_head].
  destruct (TEXT_VARIANT_RE ((LBRACE :: u2) ++ COMMA :: x))
    as [[[a' b'] rest]|] eqn:E; [exfalso | reflexivity].
  apply TEXT_VARIANT_RE_some in E as (E & Hne' & Ha' & Hb & Hb').
  simpl in E. injection E as E.
  unfold all in Ha2. simpl in Ha2.
  assert (Hs : span not_comma_rbrace (u2 ++ COMMA :: x) = (u2, COMMA :: x))
    by (apply span_intro; auto; reflexivity).
  rewrite E in Hs. rewrite span_intro in Hs; auto; [|reflexivity].
  injection Hs as _ Hs.
  destruct b' as [|y b']; [congruence|].
  subst x. simpl in Hx. subst y. unfold all in Hb'. simpl in Hb'.
  discriminate.
Qed.

Lemma collapse_head (c : char) (s : str) :
  c <> LBRACE -> collapse_variants (c :: s) = c :: collapse_variants s.
Proof.
  intros Hc. unfold collapse_variants. apply re_sub_miss; auto.
  now apply TEXT_VARIANT_RE_head.
Qed.

Lemma stops_ncr (c : char) :
  not_comma_rbrace c = false -> c = COMMA \/ c = RBRACE.
Proof.
  unfold not_comma_rbrace.
  destruct (N.eqb_spec c COMMA); auto.
  destruct (N.eqb_spec c RBRACE); auto. discriminate.
Qed.

Lemma stops_nr (c : char) : not_rbrace c = false -> c = RBRACE.
Proof.
  unfold not_rbrace. destruct (N.eqb_spec c RBRACE); auto. discriminate.
Qed.

(** An opening brace at which no group starts still starts none once the
    text after it has been collapsed. *)
Lemma variant_miss_stable (s : str) :
  TEXT_VARIANT_RE (LBRACE :: s) = None ->
  TEXT_VARIANT_RE (LBRACE :: collapse_variants s) = None.
Proof.
  intros Hmiss.
  destruct (span not_comma_rbrace s) as [a r] eqn:Ea.
  pose proof (span_app _ _ Ea) as Hs.
  pose proof (span_all _ _ Ea) as Ha.
  pose proof (span_stops _ _ Ea) as Hr.
  assert (Hla : all not_comma_rbrace (LBRACE :: a)) by exact Ha.
  destruct r as [|c r].
  - (* the text ends inside the left side *)
    subst s. rewrite collapse_quiet by (apply quiet_left_no_comma; simpl; auto).
    apply (@quiet_left_no_comma (LBRACE :: a) [] Hla Hr I [] (LBRACE :: a));
      [reflexivity | discriminate].
  - simpl in Hr. destruct (N.eq_dec c COMMA) as [->|Hc].
    + destruct (str_eq_dec a []) as [->|Hane].
      { (* no left side *)
        simpl in Hs. subst s. rewrite collapse_head by discriminate.
        reflexivity. }
      destruct (span not_rbrace r) as [b r3] eqn:Eb.
      pose proof (span_app _ _ Eb) as Hr2.
      pose proof (span_all _ _ Eb) as Hb.
      pose proof (span_stops _ _ Eb) as Hr3.
      destruct b as [|y b].
      * (* no right side *)
        simpl in Hr2. subst r3.
        assert (Hd : dead r).
        { destruct r as [|z r]; simpl in *; auto. now apply stops_nr. }
        assert (Hd' : dead (collapse_variants r)).
        { destruct r as [|z r]; [exact I|]. simpl in Hd. subst z.
          rewrite collapse_head by discriminate. reflexivity. }
        subst s. rewrite collapse_quiet by (now apply quiet_left_dead_comma).
        rewrite collapse_head by discriminate.
        apply (@quiet_left_dead_comma (LBRACE :: a) _ Hla Hd' [] (LBRACE :: a));
          [reflexivity | discriminate].
      * destruct r3 as [|z r3].
        -- (* no closing brace at all *)
           assert (Hn : ~ In RBRACE s).
           { subst s r. rewrite app_nil_r. intros Hin.
             apply in_app_or in Hin as [Hin | [Hin | Hin]].
             - revert Hin. now apply (all_not_in _ Ha).
             - discriminate.
             - revert Hin. now apply (all_not_in _ Hb). }
           unfold collapse_variants.
           rewrite re_sub_no_match; auto.
           now apply variant_needs_rbrace.
        -- (* a complete group would have matched *)
           exfalso. simpl in Hr3. apply stops_nr in Hr3. subst z.
           assert (E : TEXT_VARIANT_RE (LBRACE :: s)
                       = Some ((a, y :: b), r3)).
           { apply TEXT_VARIANT_RE_some. subst s r.
             repeat split; auto; discriminate. }
           congruence.
    + (* the left side is closed without a comma *)
      assert (c <> LBRACE).
      { intros ->. discriminate. }
      subst s.
      rewrite collapse_quiet by (apply quiet_left_no_comma; simpl; auto).
      rewrite collapse_head by assumption.
      apply (@quiet_left_no_comma (LBRACE :: a) (c :: collapse_variants r)
               Hla Hr Hc [] (LBRACE :: a)); [reflexivity | discriminate].
Qed.

Lemma re_search_skip (b x : str) :
  ~ In LBRACE b ->
  re_search TEXT_VARIANT_RE (b ++ x) = re_search TEXT_VARIANT_RE x.
Proof.
  induction b as [|c b IH]; intros Hn; [reflexivity|].
  simpl. rewrite TEXT_VARIANT_RE_head.
  - apply IH. intros H. apply Hn. now right.
  - intros ->. apply Hn. now left.
Qed.

Lemma collapse_leaves_no_group (line : str) :
  rights_without_lbrace line = true ->
  re_search TEXT_VARIANT_RE (collapse_variants line) = None.
Proof.
  unfold rights_without_lbrace, collapse_variants.
  induction line as [| c s E IH | s [a b] rest E IH]
    using (scan_ind TEXT_VARIANT_RE_consumes); intros H.
  - reflexivity.
  - rewrite re_matches_miss in H by auto.
    rewrite re_sub_miss by auto. simpl.
    destruct (N.eq_dec c LBRACE) as [->|Hc].
    + fold (collapse_variants s). rewrite variant_miss_stable by assumption.
      auto.
    + rewrite TEXT_VARIANT_RE_head by assumption. auto.
  - rewrite re_matches_hit with (g := (a, b)) (rest := rest) in H by auto.
    simpl in H. apply andb_prop in H as [Hb H].
    rewrite re_sub_hit with (g := (a, b)) (rest := rest) by auto.
    simpl. rewrite re_search_skip; auto.
    apply has_char_false. now apply negb_true_iff.
Qed.

(** ** Bare page markers: what a substitution leaves behind *)

Lemma BRACKET_PAGE_RE_head (c : char) (s : str) :
  c <> LBRACKET -> BRACKET_PAGE_RE (c :: s) = None.
Proof.
  intros Hc. unfold BRACKET_PAGE_RE. simpl.
  destruct (N.eqb_spec c LBRACKET); [contradiction | reflexivity].
Qed.

Lemma BRACKET_WITH_DOT_RE_head (c : char) (s : str) :
  c <> LBRACKET -> BRACKET_WITH_DOT_RE (c :: s) = None.
Proof.
  intros Hc. unfold BRACKET_WITH_DOT_RE. simpl.
  destruct (N.eqb_spec c LBRACKET); [contradiction | reflexivity].
Qed.

Lemma page_search_skip (b x : str) :
  ~ In LBRACKET b ->
  re_search BRACKET_PAGE_RE (b ++ x) = re_search BRACKET_PAGE_RE x.
Proof.
  induction b as [|c b IH]; intros Hn; [reflexivity|].
  simpl. rewrite BRACKET_PAGE_RE_head.
  - apply IH. intros H. apply Hn. now right.
  - intros ->. apply Hn. now left.
Qed.



Lemma uint_digits_range (u : Decimal.uint) (c : char) :
  In c (uint_digits u) -> (48 <= c <= 57)%N.
Proof.
  induction u; simpl; intros H; try contradiction;
    (destruct H as [<- | H]; [lia | auto]).
Qed.

Lemma str_of_nat_no_bracket (n : nat) : ~ In LBRACKET (str_of_nat n).
Proof.
  intros H. apply uint_digits_range in H. unfold LBRACKET in H. lia.
Qed.

Lemma repl_page_text : page_text repl.
Proof.
  intros g c. exists (lit "age: " ++ str_of_nat c). split; [reflexivity|].
  intros H. apply in_app_or in H as [H | H].
  - simpl in H. unfold LBRACKET in H.
    repeat (destruct H as [H | H]; [discriminate|]). exact H.
  - revert H. apply str_of_nat_no_bracket.
Qed.

Lemma const_page_text :
  page_text (fun (g : unit) (_ : unit) => ((fun _ => lit "Page: 1") g, tt)).
Proof.
  intros g c. exists (lit "age: 1"). split; [reflexivity|].
  simpl. unfold LBRACKET. intros H.
  repeat (destruct H as [H | H]; [discriminate|]). exact H.
Qed.


Section PageSub.
Context {St : Type}.
Variable f : unit -> St -> str * St.
Hypothesis f_page : page_text f.

Let out (s : str) (st : St) : str := fst (re_sub_st BRACKET_PAGE_RE f s st).

Lemma out_head (s : str) (st : St) (x : char) (o : str) :
  out s st = x :: o -> x <> UPPER_P ->
  exists s', s = x :: s' /\ BRACKET_PAGE_RE s = None /\ out s' st = o.
Proof.
  unfold out. intros H Hx. destruct s as [|c s]; [discriminate|].
  destruct (BRACKET_PAGE_RE (c :: s)) as [[g rest]|] eqn:E.
  - rewrite re_sub_st_hit with (g := g) (rest := rest) in H by auto.
    destruct (f_page g st) as (r & Hr & _). simpl in H. rewrite Hr in H.
    simpl in H. congruence.
  - rewrite re_sub_st_miss in H by auto. simpl in H.
    injection H as -> H. eauto.
Qed.

Lemma out_prefix (u o s : str) (st : St) :
  out s st = u ++ o -> ~ In UPPER_P u ->
  exists s', s = u ++ s' /\ out s' st = o.
Proof.
  revert s. induction u as [|x u IH]; intros s H Hu.
  - exists s. auto.
  - simpl in H. apply out_head in H as (s1 & -> & _ & H).
    + apply IH in H as (s' & -> & H).
      * exists s'. auto.
      * intros Hin. apply Hu. now right.
    + intros ->. apply Hu. now left.
Qed.

(** A marker read in the output was already there in the input. *)
Lemma page_hit_transfer (s : str) (st : St) :
  BRACKET_PAGE_RE (LBRACKET :: out s st) <> None ->
  BRACKET_PAGE_RE (LBRACKET :: s) <> None.
Proof.
  intros H.
  destruct (BRACKET_PAGE_RE (LBRACKET :: out s st)) as [[[] rest]|] eqn:E;
    [clear H | congruence].
  apply BRACKET_PAGE_RE_some in E as (ds & l & E & Hne & Hd & Hl).
  injection E as E.
  replace (ds ++ l :: RBRACKET :: rest)
    with ((ds ++ [l; RBRACKET]) ++ rest) in E
    by (now rewrite <- app_assoc).
  apply out_prefix in E as (s' & -> & _).
  - intros Hn.
    assert (Hs : BRACKET_PAGE_RE
                   (LBRACKET :: (ds ++ [l; RBRACKET]) ++ s') = Some (tt, s')).
    { apply BRACKET_PAGE_RE_some. exists ds, l.
      rewrite <- app_assoc. auto. }
    congruence.
  - intros Hin. apply in_app_or in Hin as [Hin | [H1 | [H2 | []]]].
    + unfold all in Hd. rewrite forallb_forall in Hd.
      apply Hd in Hin. discriminate.
    + subst l. discriminate.
    + discriminate.
Qed.

(** After the substitution no bare page marker is left. *)
Lemma page_sub_clean (s : str) (st : St) :
  re_search BRACKET_PAGE_RE (out s st) = None.
Proof.
  unfold out. revert st.
  induction s as [| c s E IH | s g rest E IH]
    using (scan_ind BRACKET_PAGE_RE_consumes); intros st.
  - reflexivity.
  - rewrite re_sub_st_miss by auto. simpl.
    destruct (N.eq_dec c LBRACKET) as [->|Hc].
    + destruct (BRACKET_PAGE_RE
                  (LBRACKET :: fst (re_sub_st BRACKET_PAGE_RE f s st)))
        eqn:E'; [|apply IH].
      exfalso. apply (@page_hit_transfer s st); [|assumption].
      unfold out. congruence.
    + rewrite BRACKET_PAGE_RE_head by assumption. apply IH.
  - rewrite re_sub_st_hit with (g := g) (rest := rest) by auto. simpl.
    destruct (f_page g st) as (r & Hr & Hn). rewrite Hr.
    cbn [app re_search]. rewrite BRACKET_PAGE_RE_head by discriminate.
    rewrite page_search_skip by assumption. apply IH.
Qed.


End PageSub.

Lemma replace_page_markers_clean (line : str) (c : nat) :
  re_test BRACKET_PAGE_RE (fst (replace_page_markers line c)) = false.
Proof.
  unfold re_test, replace_page_markers.
  now rewrite (page_sub_clean repl_page_text).
Qed.

Lemma rehome_clean (line : str) :
  re_test BRACKET_PAGE_RE
    (re_sub BRACKET_PAGE_RE (fun _ => lit "Page: 1") line) = false.
Proof.
  unfold re_test, re_sub.
  now rewrite (page_sub_clean const_page_text).
Qed.

(** * Properties of the scan *)

Lemma re_sub_st_no_match {G St} (m : matcher G) (f : G -> St -> str * St)
    (s : str) (st : St) :
  re_search m s = None -> re_sub_st m f s st = (s, st).
Proof.
  induction s as [|c s IH]; [reflexivity|].
  simpl. destruct (m (c :: s)) eqn:E; [discriminate|].
  intros H. rewrite re_sub_st_miss by assumption. now rewrite IH.
Qed.

Lemma re_test_false {G} (m : matcher G) (s : str) :
  re_test m s = false <-> re_search m s = None.
Proof.
  unfold re_test. destruct (re_search m s); split; congruence.
Qed.

Lemma marker_flag_spec (line : str) :
  marker_flag line = re_test BRACKET_PAGE_RE (processed line).
Proof.
  unfold marker_flag, processed, process_line.
  destruct (re_search SECTION_TOKEN_RE _) as [[[n l] r]|]; reflexivity.
Qed.

Lemma step_eq (stem : str) (split : bool) (st : state) (line : str) :
  step stem split st line
  = append_line line (processed line) (marker_flag line)
      (after_token stem split st line).
Proof.
  unfold step, after_token, processed, marker_flag, token_of.
  destruct (process_line line) as [[p t] h]. reflexivity.
Qed.

Lemma replace_page_markers_no_marker (line : str) (c : nat) :
  re_test BRACKET_PAGE_RE line = false ->
  replace_page_markers line c = (line, c).
Proof.
  intros H. apply re_test_false in H.
  now apply re_sub_st_no_match.
Qed.

(** What an iteration appends, whether or not the flag was set. *)
Lemma step_appends (stem : str) (split : bool) (st : state) (line : str) :
  let st1 := after_token stem split st line in
  let st' := step stem split st line in
  current_lines st'
    = current_lines st1
        ++ [fst (replace_page_markers (processed line) (page_counter st1))]
  /\ page_counter st'
     = snd (replace_page_markers (processed line) (page_counter st1))
  /\ output_files st' = output_files st1
  /\ current_section st' = current_section st1
  /\ section_counter st' = section_counter st1
  /\ last_page_marker_line st'
     = if marker_flag line && (0 <? section_counter st1) then Some line
       else last_page_marker_line st1.
Proof.
  cbv zeta. rewrite step_eq. unfold append_line.
  destruct (marker_flag line) eqn:Hf.
  - destruct (replace_page_markers _ _) as [l c]. simpl.
    destruct (0 <? section_counter _); auto 10.
  - rewrite marker_flag_spec in Hf.
    rewrite replace_page_markers_no_marker by assumption. simpl. auto 10.
Qed.

Lemma run_snoc (stem : str) (split : bool) (pre : list str) (line : str) :
  run stem split (pre ++ [line]) = step stem split (run stem split pre) line.
Proof. unfold run. now rewrite fold_left_app. Qed.

Lemma step_nonempty (stem : str) (split : bool) (st : state) (line : str) :
  current_lines (step stem split st line) <> [].
Proof.
  destruct (step_appends stem split st line) as (H & _). rewrite H.
  intros E. apply app_eq_nil in E as [_ E]. discriminate.
Qed.

Lemma run_nonempty (stem : str) (split : bool) (lines : list str) :
  lines <> [] -> current_lines (run stem split lines) <> [].
Proof.
  destruct lines as [|l lines] using rev_ind; [congruence|].
  intros _. rewrite run_snoc. apply step_nonempty.
Qed.

(** The flush after the loop. *)
Lemma final_flush_spec
    (stem : str) (content_threshold : nat) (lines : list str) :
  let st := scan stem content_threshold lines in
  (current_lines st = [] <-> lines = [])
  /\ process_file stem content_threshold lines
     = match lines with
       | [] => []
       | _ :: _ =>
           output_files st
             ++ [write_section_file stem (current_section st)
                   (current_lines st)]
       end.
Proof.
  cbv zeta. unfold process_file, final_flush, scan.
  fold (run stem (should_split content_threshold lines) lines).
  destruct lines as [|l lines].
  - split; [split; reflexivity | reflexivity].
  - pose proof (@run_nonempty stem
                  (should_split content_threshold (l :: lines)) (l :: lines))
      as Hne.
    destruct (current_lines (run stem _ (l :: lines))) eqn:E.
    + exfalso. apply Hne; [discriminate | reflexivity].
    + split; [split; discriminate | reflexivity].
Qed.

(** ** C1 *)

(** C1 fails as worded: the only line of this document is handled with
    [section_counter == 0], and its marker is replaced by "Page: 1". *)
Lemma C1_counterexample : ~ C1_as_worded (lit "f") 50 [lit "[1a]x"].
Proof.
  intros H. specialize (H [] (lit "[1a]x") [] eq_refl).
  vm_compute in H. specialize (H eq_refl). discriminate H.
Qed.

(** C1, amended: every iteration appends the processed line with all
    its bare markers replaced by "Page: N", numbered from the current page
    counter, whatever [section_counter] is; no bare marker is left in the
    appended line.  [section_counter > 0] only decides whether the raw
    line is remembered as the last page-marker line. *)
Theorem C1_markers_replaced_on_every_line
    (stem : str) (split : bool) (st : state) (line : str) :
  let st1 := after_token stem split st line in
  let st' := step stem split st line in
  let numbered := replace_page_markers (processed line) (page_counter st1) in
  current_lines st' = current_lines st1 ++ [fst numbered]
  /\ page_counter st' = snd numbered
  /\ re_test BRACKET_PAGE_RE (fst numbered) = false
  /\ last_page_marker_line st'
     = if marker_flag line && (0 <? section_counter st1) then Some line
       else last_page_marker_line st1.
Proof.
  cbv zeta.
  destruct (step_appends stem split st line) as (H1 & H2 & _ & _ & _ & H3).
  repeat split; auto. apply replace_page_markers_clean.
Qed.

(** ** C5 *)

(** C5 fails as worded: an empty document leaves an empty buffer, and no
    file is written for it. *)
Lemma C5_counterexample : ~ C5_as_worded (lit "f") 50 [].
Proof. unfold C5_as_worded. vm_compute. discriminate. Qed.

(** C5, amended: at the end of the document the open buffer is written
    under its current section exactly when it is not empty, and it is
    empty exactly when the document has no line; an empty document yields
    no output file. *)
Theorem C5_final_flush_when_nonempty
    (stem : str) (content_threshold : nat) (lines : list str) :
  let st := scan stem content_threshold lines in
  (current_lines st = [] <-> lines = [])
  /\ process_file stem content_threshold lines
     = match lines with
       | [] => []
       | _ :: _ =>
           output_files st
             ++ [write_section_file stem (current_section st)
                   (current_lines st)]
       end.
Proof. apply final_flush_spec. Qed.

(** ** The boundary *)

Lemma after_token_flush (stem : str) (split : bool) (st : state)
    (line : str) :
  flushes split st line = true ->
  exists flush_as tok sc,
    after_token stem split st line = flush_and_open stem flush_as tok sc st.
Proof.
  unfold flushes, after_token, on_section_token.
  destruct (token_of line) as [tok|]; [|discriminate].
  destruct (section_counter st =? 0).
  - intros ->. eauto.
  - intros _. eauto.
Qed.

Lemma after_token_no_flush (stem : str) (split : bool) (st : state)
    (line : str) :
  flushes split st line = false ->
  output_files (after_token stem split st line) = output_files st
  /\ current_lines (after_token stem split st line) = current_lines st
  /\ page_counter (after_token stem split st line) = page_counter st
  /\ last_page_marker_line (after_token stem split st line)
     = last_page_marker_line st.
Proof.
  unfold flushes, after_token, on_section_token.
  destruct (token_of line) as [tok|]; [|auto].
  destruct (section_counter st =? 0); [|discriminate].
  intros ->. simpl. auto.
Qed.

Lemma pop_last_marker_clean (lines : list str) :
  clean_buffer lines = true -> pop_last_marker lines = None.
Proof.
  unfold clean_buffer. induction lines as [|l lines IH]; [reflexivity|].
  simpl. intros H. apply andb_prop in H as [Hl H].
  rewrite IH by assumption. apply negb_true_iff in Hl. now rewrite Hl.
Qed.

Lemma find_and_remove_none (last : option str) (lines : list str) :
  pop_last_marker lines = None -> find_and_remove last lines = (last, lines).
Proof.
  intros H. unfold find_and_remove. rewrite H.
  destruct last, lines; reflexivity.
Qed.

Lemma flush_and_open_lines (stem flush_as tok : str) (sc : nat) (st : state) :
  current_lines (flush_and_open stem flush_as tok sc st) = []
  \/ exists r, current_lines (flush_and_open stem flush_as tok sc st)
               = [re_sub BRACKET_PAGE_RE (fun _ => lit "Page: 1") r].
Proof.
  unfold flush_and_open.
  destruct (find_and_remove _ _) as [[r|] ls]; simpl; eauto.
Qed.

Lemma after_token_clean (stem : str) (split : bool) (st : state)
    (line : str) :
  clean_buffer (current_lines st) = true ->
  clean_buffer (current_lines (after_token stem split st line)) = true.
Proof.
  intros H. destruct (flushes split st line) eqn:F.
  - apply (@after_token_flush stem) in F as (fa & tok & sc & ->).
    destruct (flush_and_open_lines stem fa tok sc st) as [-> | [r ->]];
      [reflexivity|].
    unfold clean_buffer. simpl. now rewrite rehome_clean.
  - apply (@after_token_no_flush stem) in F as (_ & -> & _). assumption.
Qed.

Lemma step_clean (stem : str) (split : bool) (st : state) (line : str) :
  clean_buffer (current_lines st) = true ->
  clean_buffer (current_lines (step stem split st line)) = true.
Proof.
  intros H. destruct (step_appends stem split st line) as (-> & _).
  unfold clean_buffer. rewrite forallb_app.
  fold (clean_buffer (current_lines (after_token stem split st line))).
  rewrite after_token_clean by assumption. simpl.
  now rewrite replace_page_markers_clean.
Qed.

(** No line of the buffer ever holds a bare page marker, so the backward
    search of the boundary never finds a line to remove. *)
Lemma run_clean (stem : str) (split : bool) (lines : list str) :
  clean_buffer (current_lines (run stem split lines)) = true.
Proof.
  induction lines as [|l lines IH] using rev_ind; [reflexivity|].
  rewrite run_snoc. now apply step_clean.
Qed.

Lemma search_never_finds (stem : str) (split : bool) (lines : list str) :
  pop_last_marker (current_lines (run stem split lines)) = None.
Proof. apply pop_last_marker_clean, run_clean. Qed.

(** At a flush the whole buffer is written: nothing has been removed
    from it. *)
Lemma flush_writes_whole_buffer (stem : str) (split : bool)
    (lines : list str) (line : str) :
  let st := run stem split lines in
  flushes split st line = true ->
  exists flush_as,
    output_files (after_token stem split st line)
    = output_files st ++ [write_section_file stem flush_as (current_lines st)].
Proof.
  cbv zeta. intros F.
  pose proof (search_never_finds stem split lines) as Hpop.
  unfold flushes in F. unfold after_token, on_section_token.
  destruct (token_of line) as [tok|]; [|discriminate].
  destruct (section_counter _ =? 0); [subst split|];
    unfold flush_and_open; rewrite find_and_remove_none by assumption;
    destruct (last_page_marker_line _); simpl; eauto.
Qed.

(** ** C3 *)

(** C3 fails on the code: in the document "{D1}a", "[1b]b", "{D2}c" the
    line "[1b]b" is pending at "{D2}c" and the backward search finds no
    line to remove (the buffer holds "a" and "Page: 1b"); the file of D1
    is written with the whole buffer, and yet "Page: 1b" is pushed into
    the buffer of D2, whose page counter starts at 2. *)
Theorem C3_line_pushed_though_search_fails :
  let doc := [lit "{D1}a"; lit "[1b]b"; lit "{D2}c"] in
  let split := should_split 50 doc in
  let st := run (lit "f") split [lit "{D1}a"; lit "[1b]b"] in
  let st1 := after_token (lit "f") split st (lit "{D2}c") in
  flushes split st (lit "{D2}c") = true
  /\ last_page_marker_line st = Some (lit "[1b]b")
  /\ current_lines st = [lit "a"; lit "Page: 1b"]
  /\ pop_last_marker (current_lines st) = None
  /\ output_files st1
     = [ {| w_section := lit "D1"; w_path := lit "f_D1.txt";
            w_lines := [lit "a"; lit "Page: 1b"] |} ]
  /\ current_lines st1 = [lit "Page: 1b"]
  /\ page_counter st1 = 2.
Proof. vm_compute. repeat split; reflexivity. Qed.

(** ** C2 *)

(** C2 fails on the code: the line "[1b]b" is written both to the file
    of D1, which is flushed with it, and to the file of D2, into which it
    is re-homed. *)
Theorem C2_relocated_line_is_duplicated :
  let out :=
    process_file (lit "f") 50 [lit "{D1}a"; lit "[1b]b"; lit "{D2}c"] in
  out = [ {| w_section := lit "D1"; w_path := lit "f_D1.txt";
             w_lines := [lit "a"; lit "Page: 1b"] |};
          {| w_section := lit "D2"; w_path := lit "f_D2.txt";
             w_lines := [lit "Page: 1b"; lit "c"] |} ]
  /\ emitted_lines out = [lit "a"; lit "Page: 1b"; lit "Page: 1b"; lit "c"].
Proof. vm_compute. split; reflexivity. Qed.

(** ** C4 *)

(** C4 fails on the code: the line "[1a]x[1b]y" is re-homed into the
    buffer of D2 with "Page: 1" at both of its markers, and the next label
    of that buffer is "Page: 2": the file of D2 carries the labels 1, 1,
    2.  [replace_page_markers] numbers the same line 1, 2. *)
Theorem C4_rehomed_line_repeats_label :
  process_file (lit "f") 50
    [lit "{D1}a"; lit "[1a]x[1b]y"; lit "{D2}c"; lit "[2a]z"]
  = [ {| w_section := lit "D1"; w_path := lit "f_D1.txt";
         w_lines := [lit "a"; lit "Page: 1xPage: 2y"] |};
      {| w_section := lit "D2"; w_path := lit "f_D2.txt";
         w_lines := [lit "Page: 1xPage: 1y"; lit "c"; lit "Page: 2z"] |} ]
  /\ replace_page_markers (lit "[1a]x[1b]y") 1
     = (lit "Page: 1xPage: 2y", 3).
Proof. vm_compute. split; reflexivity. Qed.

(** ** The pre-scan *)

Lemma count_loop_spec (lines : list str) (i : Z) (k : nat) :
  (forallb no_raw_token lines = true
   /\ count_loop lines i k = (k + count_meaningful lines, (-1)%Z))
  \/ (exists pre l post,
        lines = pre ++ l :: post
        /\ forallb no_raw_token pre = true
        /\ re_test SECTION_TOKEN_RE l = true
        /\ count_loop lines i k
           = (k + count_meaningful pre, (i + Z.of_nat (length pre))%Z)).
Proof.
  revert i k. induction lines as [|l lines IH]; intros i k.
  - left. simpl. split; auto. unfold count_meaningful. simpl.
    now rewrite Nat.add_0_r.
  - simpl. unfold no_raw_token at 1.
    destruct (re_test SECTION_TOKEN_RE l) eqn:T.
    + right. exists [], l, lines. simpl. repeat split; auto.
      unfold count_meaningful. simpl. f_equal; [lia | lia].
    + simpl.
      destruct (IH (i + 1)%Z (if is_meaningful_line l then k + 1 else k))
        as [[Hall ->] | (pre & x & post & -> & Hall & Hx & ->)].
      * left. split; auto. unfold count_meaningful. simpl.
        destruct (is_meaningful_line l); simpl; f_equal; lia.
      * right. exists (l :: pre), x, post. simpl.
        unfold no_raw_token at 1. rewrite T. simpl.
        repeat split; auto.
        unfold count_meaningful. simpl.
        destruct (is_meaningful_line l); simpl; f_equal; lia.
Qed.

(** The first line with a raw token is the same however the document is
    cut. *)
Lemma first_token_unique (pre pre' : list str) (l l' : str)
    (post post' : list str) :
  pre ++ l :: post = pre' ++ l' :: post' ->
  forallb no_raw_token pre = true -> re_test SECTION_TOKEN_RE l = true ->
  forallb no_raw_token pre' = true -> re_test SECTION_TOKEN_RE l' = true ->
  pre = pre'.
Proof.
  revert pre'. induction pre as [|x pre IH]; intros [|x' pre'] E H T H' T';
    simpl in *.
  - reflexivity.
  - injection E as -> _. apply andb_prop in H' as [H' _].
    unfold no_raw_token in H'. rewrite T in H'. discriminate.
  - injection E as -> _. apply andb_prop in H as [H _].
    unfold no_raw_token in H. rewrite T' in H. discriminate.
  - injection E as -> E. apply andb_prop in H as [_ H].
    apply andb_prop in H' as [_ H']. f_equal. eauto.
Qed.

Lemma should_split_spec (content_threshold : nat) (lines : list str) :
  should_split content_threshold lines = true
  <-> long_lead_in content_threshold lines.
Proof.
  unfold should_split, count_meaningful_lines_before_section, long_lead_in.
  destruct (count_loop_spec lines 0 0)
    as [[Hall ->] | (pre & l & post & E & Hall & Hl & ->)].
  - rewrite andb_false_r. split; [discriminate|].
    intros (pre & l & post & -> & _ & Hl & _).
    rewrite forallb_app in Hall. apply andb_prop in Hall as [_ Hall].
    simpl in Hall. unfold no_raw_token in Hall at 1. rewrite Hl in Hall.
    discriminate.
  - simpl. split.
    + intros H. apply andb_prop in H as [H1 H2].
      apply Nat.leb_le in H1. apply Z.ltb_lt in H2.
      exists pre, l, post. repeat split; auto.
      intros ->. simpl in H2. lia.
    + intros (pre' & l' & post' & E' & Hall' & Hl' & Hne & Hc).
      assert (pre = pre').
      { subst lines. eapply first_token_unique; eauto. }
      subst pre'. apply andb_true_intro. split.
      * now apply Nat.leb_le.
      * apply Z.ltb_lt. destruct pre; [congruence | simpl; lia].
Qed.

Lemma should_split_no_raw_token (content_threshold : nat)
    (lines : list str) :
  forallb no_raw_token lines = true ->
  should_split content_threshold lines = false.
Proof.
  intros Hall.
  destruct (should_split content_threshold lines) eqn:S; [|reflexivity].
  apply should_split_spec in S as (pre & l & post & -> & _ & Hl & _).
  rewrite forallb_app in Hall. apply andb_prop in Hall as [_ Hall].
  simpl in Hall. unfold no_raw_token in Hall at 1. rewrite Hl in Hall.
  discriminate.
Qed.

(** ** Section tokens and the files of the scan *)

Lemma token_starts_with_D (line tok : str) :
  token_of line = Some tok -> exists t, tok = UPPER_D :: t.
Proof.
  unfold token_of, process_line.
  destruct (re_search SECTION_TOKEN_RE _) as [[[n l] r]|]; simpl;
    intros H; inversion H; eauto.
Qed.

Lemma has_token_snoc (pre : list str) (line : str) :
  has_token (pre ++ [line])
  = has_token pre
    || match token_of line with Some _ => true | None => false end.
Proof.
  unfold has_token. rewrite existsb_app. simpl. now rewrite orb_false_r.
Qed.

Lemma has_base_snoc (out : list written) (w : written) :
  has_base (out ++ [w])
  = has_base out
    || if str_eq_dec (w_section w) (lit "BASE") then true else false.
Proof.
  unfold has_base. rewrite existsb_app. simpl. now rewrite orb_false_r.
Qed.

Lemma flush_and_open_files (stem flush_as tok : str) (sc : nat) (st : state) :
  exists ls,
    output_files (flush_and_open stem flush_as tok sc st)
    = output_files st ++ [write_section_file stem flush_as ls]
    /\ current_section (flush_and_open stem flush_as tok sc st) = tok
    /\ section_counter (flush_and_open stem flush_as tok sc st) = sc + 1.
Proof.
  unfold flush_and_open.
  destruct (find_and_remove _ _) as [[r|] ls]; simpl; eauto.
Qed.

Lemma tokens_ok_step (stem : str) (split : bool) (pre : list str)
    (st : state) (line : str) :
  tokens_ok split pre st ->
  tokens_ok split (pre ++ [line]) (step stem split st line).
Proof.
  intros (Hc & Hb & Hs).
  destruct (step_appends stem split st line)
    as (_ & _ & Ho & Hcs & Hsc & _).
  unfold tokens_ok. rewrite Ho, Hcs, Hsc, has_token_snoc. clear Ho Hcs Hsc.
  unfold after_token.
  destruct (token_of line) as [tok|] eqn:T.
  - destruct (token_starts_with_D _ T) as (t & ->).
    rewrite orb_true_r, andb_true_r.
    unfold on_section_token.
    destruct (section_counter st =? 0) eqn:Z.
    + symmetry in Hc. apply negb_true_iff in Hc. rewrite Hc in Hb.
      rewrite andb_false_r in Hb.
      destruct split.
      * destruct (flush_and_open_files stem (lit "BASE") (UPPER_D :: t)
                    (section_counter st) st) as (ls & -> & -> & ->).
        rewrite has_base_snoc, Hb. simpl.
        repeat split; try discriminate.
        apply Nat.eqb_neq. lia.
      * simpl. repeat split; auto; try discriminate.
        apply Nat.eqb_neq. lia.
    + symmetry in Hc. apply negb_false_iff in Hc. rewrite Hc in Hb.
      rewrite andb_true_r in Hb.
      destruct (flush_and_open_files stem (current_section st) (UPPER_D :: t)
                  0 st) as (ls & -> & -> & ->).
      rewrite has_base_snoc, Hb. simpl.
      destruct (str_eq_dec (current_section st) (lit "BASE")); [contradiction|].
      rewrite orb_false_r. repeat split; try discriminate.
  - rewrite orb_false_r. auto.
Qed.

Lemma tokens_ok_run (stem : str) (split : bool) (lines : list str) :
  tokens_ok split lines (run stem split lines).
Proof.
  induction lines as [|l lines IH] using rev_ind.
  - unfold tokens_ok. simpl. rewrite andb_false_r.
    repeat split; discriminate.
  - rewrite run_snoc. now apply tokens_ok_step.
Qed.

Lemma has_base_final_flush (stem : str) (st : state) :
  current_section st <> lit "BASE" ->
  has_base (final_flush stem st) = has_base (output_files st).
Proof.
  intros H. unfold final_flush. destruct (current_lines st); [reflexivity|].
  rewrite has_base_snoc. simpl.
  destruct (str_eq_dec (current_section st) (lit "BASE")); [contradiction|].
  apply orb_false_r.
Qed.

Lemma has_base_process_file (stem : str) (content_threshold : nat)
    (lines : list str) :
  has_base (process_file stem content_threshold lines)
  = should_split content_threshold lines && has_token lines.
Proof.
  unfold process_file, scan.
  fold (run stem (should_split content_threshold lines) lines).
  destruct (tokens_ok_run stem (should_split content_threshold lines) lines)
    as (_ & Hb & Hs).
  now rewrite has_base_final_flush.
Qed.

(** ** C6 *)

(** C6 fails as worded: with a threshold of 1, the pre-scan finds "{D1}"
    on the second raw line after one meaningful line, so the heuristic
    holds; but [process_line] first collapses "{x,{D1}" to "{D1", no
    section token is met, and everything goes to one file. *)
Lemma C6_counterexample :
  ~ C6_as_worded (lit "f") 1 [lit "a"; lit "{x,{D1}"].
Proof.
  unfold C6_as_worded. intros [_ H].
  assert (B : has_base (process_file (lit "f") 1 [lit "a"; lit "{x,{D1}"])
              = false) by (vm_compute; reflexivity).
  rewrite H in B; [discriminate|].
  exists [lit "a"], (lit "{x,{D1}"), []. repeat split.
  - discriminate.
  - vm_compute. lia.
Qed.

Lemma hidden_token_output :
  process_file (lit "f") 1 [lit "a"; lit "{x,{D1}"]
  = [ {| w_section := lit "UNKNOWN"; w_path := lit "f.txt";
         w_lines := [lit "a"; lit "{D1"] |} ].
Proof. vm_compute. reflexivity. Qed.

(** C6, amended: a lead-in file is written for the section BASE exactly
    when the condition of the split heuristic holds and [process_line]
    extracts a section token from at least one line.  With the default
    threshold, 60 meaningful lines before the first "{D1}" give a lead-in
    file (named after the stem alone) and a file for D1; 10 such lines
    give the single file of D1. *)
Theorem C6_lead_in_file
    (stem : str) (content_threshold : nat) (lines : list str) :
  (has_base (process_file stem content_threshold lines) = true
   <-> long_lead_in content_threshold lines /\ has_token lines = true)
  /\ process_file (lit "f") 50 (repeat (lit "a") 60 ++ [lit "{D1}b"])
     = [ {| w_section := lit "BASE"; w_path := lit "f.txt";
            w_lines := repeat (lit "a") 60 |};
         {| w_section := lit "D1"; w_path := lit "f_D1.txt";
            w_lines := [lit "b"] |} ]
  /\ process_file (lit "f") 50 (repeat (lit "a") 10 ++ [lit "{D1}b"])
     = [ {| w_section := lit "D1"; w_path := lit "f_D1.txt";
            w_lines := repeat (lit "a") 10 ++ [lit "b"] |} ].
Proof.
  split; [|split; vm_compute; reflexivity].
  rewrite has_base_process_file, <- should_split_spec.
  split; intros H.
  - now apply andb_prop in H.
  - apply andb_true_intro. exact H.
Qed.

(** ** Documents without section tokens *)

Lemma run_without_tokens (stem : str) (split : bool) (lines : list str)
    (st : state) :
  has_token lines = false ->
  let st' := fold_left (step stem split) lines st in
  output_files st' = output_files st
  /\ current_section st' = current_section st
  /\ current_lines st'
     = current_lines st ++ number_lines (page_counter st) lines.
Proof.
  revert st. induction lines as [|l lines IH]; intros st H.
  - simpl. rewrite app_nil_r. auto.
  - unfold has_token in H. simpl in H. apply orb_false_elim in H as [Hl H].
    cbn [fold_left]. cbv zeta.
    destruct (IH (step stem split st l) H) as (-> & -> & ->).
    destruct (step_appends stem split st l) as (-> & -> & -> & -> & _).
    unfold after_token. destruct (token_of l); [discriminate|].
    repeat split. cbn [number_lines].
    destruct (replace_page_markers (processed l) (page_counter st)).
    simpl. now rewrite <- app_assoc.
Qed.

(** ** C10 *)

(** C10 fails as worded: the pattern of section tokens matches on
    neither raw line, but deleting the dotted markers uncovers "{D1}" and
    "{D2}": two files are written, named after D1 and D2. *)
Lemma C10_counterexample :
  ~ C10_as_worded (lit "f") 50 [lit "{D[1a.1]1}a"; lit "{D[1a.1]2}b"].
Proof.
  unfold C10_as_worded. intros H.
  destruct H as [_ (w & H & _)]; [reflexivity|].
  vm_compute in H. discriminate H.
Qed.

Lemma uncovered_tokens_output :
  process_file (lit "f") 50 [lit "{D[1a.1]1}a"; lit "{D[1a.1]2}b"]
  = [ {| w_section := lit "D1"; w_path := lit "f_D1.txt";
         w_lines := [lit "a"] |};
      {| w_section := lit "D2"; w_path := lit "f_D2.txt";
         w_lines := [lit "b"] |} ].
Proof. vm_compute. reflexivity. Qed.

(** C10, amended: when the pattern of section tokens matches on no raw
    line and [process_line] extracts a section token from no line, the
    heuristic does not fire and [process_file] writes no file for an empty
    document and otherwise exactly one file, named after the stem alone,
    that holds every processed line with its page markers numbered from
    1. *)
Theorem C10_single_file_without_tokens
    (stem : str) (content_threshold : nat) (lines : list str) :
  forallb no_raw_token lines = true ->
  has_token lines = false ->
  should_split content_threshold lines = false
  /\ process_file stem content_threshold lines
     = match lines with
       | [] => []
       | _ :: _ =>
           [ {| w_section := lit "UNKNOWN";
                w_path := stem ++ lit ".txt";
                w_lines := number_lines 1 lines |} ]
       end.
Proof.
  intros Hraw Htok. split; [now apply should_split_no_raw_token|].
  destruct (final_flush_spec stem content_threshold lines)
    as [_ ->].
  destruct lines as [|l lines]; [reflexivity|].
  unfold scan.
  destruct (@run_without_tokens stem
              (should_split content_threshold (l :: lines)) (l :: lines)
              initial_state Htok) as (-> & -> & ->).
  reflexivity.
Qed.

Lemma C10_single_file_without_tokens_witness :
  process_file (lit "f") 50 [lit "a{x,y}"; lit "[1a.1][1b]z"]
  = [ {| w_section := lit "UNKNOWN"; w_path := lit "f.txt";
         w_lines := [lit "ay"; lit "Page: 1z"] |} ].
Proof.
  exact (proj2 (@C10_single_file_without_tokens (lit "f") 50
                  [lit "a{x,y}"; lit "[1a.1][1b]z"] eq_refl eq_refl)).
Defined.

(** ** C8 *)

(** C8 fails as worded: "{x,{a,b}}" collapses to "{a,b}", which
    collapses to "b". *)
Lemma C8_counterexample : ~ C8_as_worded (lit "{x,{a,b}}").
Proof. unfold C8_as_worded. vm_compute. discriminate. Qed.

(** C8, amended: the text-variant collapse is idempotent on every line
    in which no retained right side (the B of a collapsed {A,B}) contains
    an opening brace: its output then holds no further group. *)
Theorem C8_collapse_idempotent (line : str) :
  rights_without_lbrace line = true ->
  collapse_variants (collapse_variants line) = collapse_variants line.
Proof.
  intros H. unfold collapse_variants at 1.
  apply re_sub_no_match. now apply collapse_leaves_no_group.
Qed.

Lemma C8_collapse_idempotent_witness :
  collapse_variants (collapse_variants (lit "a{x,y}b{{p,q}c"))
  = collapse_variants (lit "a{x,y}b{{p,q}c").
Proof.
  exact (@C8_collapse_idempotent (lit "a{x,y}b{{p,q}c") eq_refl).
Defined.

(** ** Markers in their context *)

Lemma prefix_before (t r u y : str) (c : char) :
  t ++ r = u ++ c :: y -> ~ In c t -> exists u', u = t ++ u'.
Proof.
  revert u. induction t as [|x t IH]; intros u E Hn.
  - exists u. reflexivity.
  - destruct u as [|x' u]; simpl in E; injection E as -> E.
    + exfalso. apply Hn. now left.
    + destruct (IH u E) as (u' & ->).
      * intros H. apply Hn. now right.
      * exists u'. reflexivity.
Qed.

Lemma digits_no_bracket (ds : str) : all is_digit ds -> ~ In LBRACKET ds.
Proof. intros H. now apply (all_not_in _ H). Qed.

Lemma BRACKET_PAGE_RE_token : bracket_token BRACKET_PAGE_RE.
Proof.
  split; [apply BRACKET_PAGE_RE_head | split; [reflexivity|]].
  intros s [] rest H.
  apply BRACKET_PAGE_RE_some in H as (ds & l & -> & Hne & Hd & Hl).
  exists (ds ++ [l; RBRACKET]). rewrite <- app_assoc. split; [reflexivity|].
  split.
  - intros Hin. apply in_app_or in Hin as [Hin | [H1 | [H2 | []]]].
    + revert Hin. now apply digits_no_bracket.
    + subst l. discriminate.
    + discriminate.
  - intros x. apply BRACKET_PAGE_RE_some. exists ds, l.
    rewrite <- app_assoc. auto.
Qed.

Lemma BRACKET_WITH_DOT_RE_token : bracket_token BRACKET_WITH_DOT_RE.
Proof.
  split; [apply BRACKET_WITH_DOT_RE_head | split; [reflexivity|]].
  intros s [] rest H.
  apply BRACKET_WITH_DOT_RE_some in H
    as (ds & l & es & -> & Hne & Hd & Hl & Hne' & He).
  exists (ds ++ l :: DOT :: es ++ [RBRACKET]).
  assert (A : forall x, (ds ++ l :: DOT :: es ++ [RBRACKET]) ++ x
                        = ds ++ l :: DOT :: es ++ RBRACKET :: x).
  { intros x. rewrite <- app_assoc. simpl. now rewrite <- app_assoc. }
  rewrite A. split; [reflexivity|]. split.
  - intros Hin. apply in_app_or in Hin as [Hin | [H1 | [H2 | Hin]]].
    + revert Hin. now apply digits_no_bracket.
    + subst l. discriminate.
    + discriminate.
    + apply in_app_or in Hin as [Hin | [H3 | []]].
      * revert Hin. now apply digits_no_bracket.
      * discriminate.
  - intros x. rewrite A. apply BRACKET_WITH_DOT_RE_some. exists ds, l, es.
    auto 8.
Qed.

#[local] Hint Resolve BRACKET_PAGE_RE_token BRACKET_WITH_DOT_RE_token : core.

Section Local.
Context {G St : Type}.
Variable m : matcher G.
Variable f : G -> St -> str * St.
Hypothesis m_consumes : consumes m.
Hypothesis m_token : bracket_token m.

(** A match that starts before an opening bracket ends before it. *)
Lemma match_before_bracket (u y : str) :
  u <> [] ->
  m (u ++ LBRACKET :: y)
  = match m u with
    | Some (g, rest) => Some (g, rest ++ LBRACKET :: y)
    | None => None
    end.
Proof.
  destruct m_token as (Hhead & Hnil & Htok). intros Hne.
  destruct (m u) as [[g rest]|] eqn:E.
  - destruct (Htok _ _ _ E) as (t & -> & _ & Hall).
    simpl. rewrite <- app_assoc. apply Hall.
  - destruct (m (u ++ LBRACKET :: y)) as [[g r']|] eqn:E'; [|reflexivity].
    exfalso. destruct (Htok _ _ _ E') as (t & Eq & Hn & Hall).
    destruct u as [|c u]; [congruence|].
    simpl in Eq. injection Eq as -> Eq. symmetry in Eq.
    destruct (@prefix_before t r' u y LBRACKET Eq Hn) as (u' & ->).
    rewrite Hall in E. discriminate.
Qed.

(** [sub] works on the text before an opening bracket and on the text
    from it on one after the other. *)
Lemma re_sub_st_bracket (u y : str) (st : St) :
  re_sub_st m f (u ++ LBRACKET :: y) st
  = (fst (re_sub_st m f u st)
       ++ fst (re_sub_st m f (LBRACKET :: y) (snd (re_sub_st m f u st))),
     snd (re_sub_st m f (LBRACKET :: y) (snd (re_sub_st m f u st)))).
Proof.
  revert st. induction u as [| c s E IH | s g rest E IH]
    using (scan_ind m_consumes); intros st.
  - simpl. now destruct (re_sub_st m f (LBRACKET :: y) st).
  - assert (E' : m ((c :: s) ++ LBRACKET :: y) = None)
      by (rewrite match_before_bracket, E; [reflexivity | discriminate]).
    simpl in E' |- *.
    rewrite !re_sub_st_miss by assumption. rewrite IH. reflexivity.
  - assert (Hne : s <> []).
    { intros ->. apply m_consumes in E. simpl in E. lia. }
    assert (E' : m (s ++ LBRACKET :: y) = Some (g, rest ++ LBRACKET :: y))
      by (rewrite match_before_bracket, E; auto).
    rewrite re_sub_st_hit with (s := s ++ LBRACKET :: y) (g := g)
      (rest := rest ++ LBRACKET :: y) by assumption.
    rewrite re_sub_st_hit with (s := s) (g := g) (rest := rest)
      by assumption.
    rewrite IH. simpl. now rewrite app_assoc.
Qed.

(** Text without an opening bracket is copied. *)
Lemma re_sub_st_plain (t x : str) (st : St) :
  ~ In LBRACKET t ->
  re_sub_st m f (t ++ x) st
  = (t ++ fst (re_sub_st m f x st), snd (re_sub_st m f x st)).
Proof.
  destruct m_token as (Hhead & _). induction t as [|c t IH]; intros Hn.
  - simpl. now destruct (re_sub_st m f x st).
  - simpl. rewrite re_sub_st_miss.
    + rewrite IH; [reflexivity|]. intros H. apply Hn. now right.
    + apply Hhead. intros ->. apply Hn. now left.
Qed.
End Local.

Lemma fullmatch_dotted (mk : str) :
  fullmatch BRACKET_WITH_DOT_RE mk = true ->
  exists ds l es,
    mk = LBRACKET :: ds ++ l :: DOT :: es ++ [RBRACKET]
    /\ ds <> [] /\ all is_digit ds /\ is_lower l = true
    /\ es <> [] /\ all is_digit es.
Proof.
  unfold fullmatch.
  destruct (BRACKET_WITH_DOT_RE mk) as [[[] [|c r]]|] eqn:E;
    try discriminate.
  intros _. apply BRACKET_WITH_DOT_RE_some in E. exact E.
Qed.

(** The pattern of bare markers does not match at a dotted marker. *)
Lemma page_misses_dotted (mk post : str) :
  fullmatch BRACKET_WITH_DOT_RE mk = true ->
  exists t, mk = LBRACKET :: t /\ ~ In LBRACKET t
            /\ BRACKET_PAGE_RE (mk ++ post) = None.
Proof.
  intros H.
  destruct (fullmatch_dotted _ H) as (ds & l & es & -> & Hne & Hd & Hl & _ & He).
  exists (ds ++ l :: DOT :: es ++ [RBRACKET]). split; [reflexivity|]. split.
  - intros Hin. apply in_app_or in Hin as [Hin | [H1 | [H2 | Hin]]].
    + revert Hin. now apply digits_no_bracket.
    + subst l. discriminate.
    + discriminate.
    + apply in_app_or in Hin as [Hin | [H3 | []]].
      * revert Hin. now apply digits_no_bracket.
      * discriminate.
  - destruct (BRACKET_PAGE_RE _) as [[[] r]|] eqn:E; [exfalso | reflexivity].
    apply BRACKET_PAGE_RE_some in E as (ds' & l' & E & _ & Hd' & Hl').
    simpl in E. injection E as E. rewrite <- app_assoc in E. simpl in E.
    assert (S1 : span is_digit (ds ++ l :: DOT :: (es ++ [RBRACKET]) ++ post)
                 = (ds, l :: DOT :: (es ++ [RBRACKET]) ++ post))
      by (apply span_intro; auto; now apply lower_not_digit).
    assert (S2 : span is_digit (ds' ++ l' :: RBRACKET :: r)
                 = (ds', l' :: RBRACKET :: r))
      by (apply span_intro; auto; now apply lower_not_digit).
    rewrite E, S2 in S1. injection S1 as _ _ S1. discriminate.
Qed.

(** A dotted marker in a line is deleted with no effect on the text
    around it. *)
Lemma delete_dotted_marker (pre mk post : str) :
  fullmatch BRACKET_WITH_DOT_RE mk = true ->
  delete_dotted (pre ++ mk ++ post) = delete_dotted pre ++ delete_dotted post.
Proof.
  intros H.
  destruct (fullmatch_dotted _ H) as (ds & l & es & E & Hne & Hd & Hl & Hne' & He).
  assert (M : BRACKET_WITH_DOT_RE (mk ++ post) = Some (tt, post)).
  { apply BRACKET_WITH_DOT_RE_some. exists ds, l, es. subst mk. simpl.
    rewrite <- !app_assoc. simpl. rewrite <- app_assoc. auto 8. }
  unfold delete_dotted, re_sub.
  assert (E' : mk ++ post = LBRACKET :: (ds ++ l :: DOT :: es ++ [RBRACKET]) ++ post)
    by (now subst mk).
  rewrite E'.
  rewrite re_sub_st_bracket by auto.
  rewrite <- E'. simpl.
  rewrite re_sub_st_hit with (s := mk ++ post) (g := tt) (rest := post)
    by auto.
  simpl. reflexivity.
Qed.


(** ** C9 *)



Lemma nested_dotted_marker_output :
  process_line (lit "[1a.[1a.1]1]") = (lit "[1a.1]", None, false)
  /\ process_file (lit "f") 50 [lit "[1a.[1a.1]1]"]
     = [ {| w_section := lit "UNKNOWN"; w_path := lit "f.txt";
            w_lines := [lit "[1a.1]"] |} ].
Proof. vm_compute. split; reflexivity. Qed.

(** The line pushed at a boundary is the remembered raw line, with the
    dotted markers that [process_line] had deleted from its processed
    form: the relocation of C2 and C3 again. *)
Lemma rehomed_raw_line_output :
  process_file (lit "f") 50 [lit "{D1}a"; lit "[1a.1][1b]b"; lit "{D2}c"]
  = [ {| w_section := lit "D1"; w_path := lit "f_D1.txt";
         w_lines := [lit "a"; lit "Page: 1b"] |};
      {| w_section := lit "D2"; w_path := lit "f_D2.txt";
         w_lines := [lit "[1a.1]Page: 1b"; lit "c"] |} ].
Proof. vm_compute. reflexivity. Qed.









(** ** The batch *)

Section Batch.
Variable writable : str -> bool.
Variable content_threshold : nat.

Lemma write_all_ok (fs : list written) (w : world) :
  find (fun f => negb (writable (w_path f))) fs = None ->
  write_all writable fs w
  = (Returned tt, {| disk := disk w ++ fs; printed := printed w |}).
Proof.
  revert w. induction fs as [|f fs IH]; intros w H.
  - simpl. unfold ret. rewrite app_nil_r. now destruct w.
  - simpl in H. destruct (writable (w_path f)) eqn:W; [|discriminate].
    simpl in H. simpl. unfold io_bind, write_text. rewrite W.
    rewrite IH by assumption. simpl. now rewrite <- app_assoc.
Qed.

Lemma write_all_fail (fs : list written) (bad : written) (w : world) :
  find (fun f => negb (writable (w_path f))) fs = Some bad ->
  write_all writable fs w
  = (Raised (WriteError (w_path bad)),
     {| disk := disk w ++ written_before writable fs;
        printed := printed w |}).
Proof.
  revert w. induction fs as [|f fs IH]; intros w H; [discriminate|].
  simpl in H. simpl. unfold io_bind, write_text.
  destruct (writable (w_path f)) eqn:W; simpl in H.
  - rewrite IH by assumption. simpl. now rewrite <- app_assoc.
  - injection H as ->. rewrite app_nil_r. now destruct w.
Qed.

Lemma process_file_io_ok (f : input_file) (w : world) :
  first_error writable content_threshold f = None ->
  process_file_io writable content_threshold f w
  = (Returned (outputs_of content_threshold f),
     {| disk := disk w ++ outputs_of content_threshold f;
        printed := printed w |}).
Proof.
  unfold first_error, process_file_io, outputs_of.
  destruct (read_lines f) as [lines|]; [|discriminate].
  destruct (find _ _) eqn:F; [discriminate|]. intros _.
  unfold io_bind. now rewrite write_all_ok by assumption.
Qed.

Lemma process_file_io_fail (f : input_file) (e : error) (w : world) :
  first_error writable content_threshold f = Some e ->
  process_file_io writable content_threshold f w
  = (Raised e,
     {| disk := disk w
                ++ written_before writable (outputs_of content_threshold f);
        printed := printed w |}).
Proof.
  unfold first_error, process_file_io, outputs_of.
  destruct (read_lines f) as [lines|].
  - destruct (find _ _) as [bad|] eqn:F; [|discriminate].
    intros H. injection H as <-.
    unfold io_bind. now rewrite write_all_fail with (bad := bad).
  - intros H. injection H as <-. unfold raise. simpl.
    rewrite app_nil_r. now destruct w.
Qed.

(** The loop stops at the first file that raises. *)
Lemma process_loop_stops (pre : list input_file) (f : input_file)
    (post : list input_file) (e : error) (total : nat) (w : world) :
  forallb (succeeds writable content_threshold) pre = true ->
  first_error writable content_threshold f = Some e ->
  process_loop writable content_threshold (pre ++ f :: post) total w
  = (Raised e,
     {| disk := disk w
                ++ concat (map (outputs_of content_threshold) pre)
                ++ written_before writable (outputs_of content_threshold f);
        printed := printed w ++ map (done content_threshold) pre |}).
Proof.
  revert total w. induction pre as [|p pre IH]; intros total w Hpre Hf.
  - simpl. unfold io_bind.
    rewrite process_file_io_fail with (e := e) by assumption.
    now rewrite app_nil_r.
  - simpl in Hpre. apply andb_prop in Hpre as [Hp Hpre].
    unfold succeeds in Hp.
    destruct (first_error writable content_threshold p) eqn:Ep;
      [discriminate|].
    simpl. unfold io_bind at 1.
    rewrite process_file_io_ok by assumption.
    unfold io_bind at 1. unfold print at 1.
    rewrite IH by assumption. simpl.
    rewrite <- !app_assoc. reflexivity.
Qed.
End Batch.

(** ** C7 *)

(** C7 fails as worded: file "a" cannot be read, and the file "b.txt"
    that processing "b" would write is not on the disk afterwards. *)
Lemma C7_counterexample :
  ~ C7_as_worded (fun _ => true) 50
      [ {| stem_of := lit "a"; read_lines := None |};
        {| stem_of := lit "b"; read_lines := Some [lit "x"] |} ].
Proof.
  intros H.
  specialize (H {| stem_of := lit "b"; read_lines := Some [lit "x"] |}
                (or_intror (or_introl eq_refl)) eq_refl
                {| w_section := lit "UNKNOWN"; w_path := lit "b.txt";
                   w_lines := [lit "x"] |}
                (or_introl eq_refl)).
  vm_compute in H. exact H.
Qed.

Lemma unreadable_first_file_output :
  process_all_files (fun _ => true) 50
    [ {| stem_of := lit "a"; read_lines := None |};
      {| stem_of := lit "b"; read_lines := Some [lit "x"] |} ] empty_world
  = (Raised (ReadError (lit "a")), {| disk := []; printed := [Found 2] |}).
Proof. vm_compute. reflexivity. Qed.

(** C7, amended: [process_all_files] handles no exception.  When
    reading or writing fails for a file, the exception leaves
    [process_all_files] at that file: the files sorted before it have
    been processed, the writes of the failing file that precede the
    failure have been done, and no later file is read or written. *)
Theorem C7_failure_ends_the_batch
    (writable : str -> bool) (content_threshold : nat)
    (pre : list input_file) (f : input_file) (post : list input_file)
    (e : error) :
  forallb (succeeds writable content_threshold) pre = true ->
  first_error writable content_threshold f = Some e ->
  process_all_files writable content_threshold (pre ++ f :: post) empty_world
  = (Raised e,
     {| disk := concat (map (outputs_of content_threshold) pre)
                ++ written_before writable (outputs_of content_threshold f);
        printed := Found (length (pre ++ f :: post))
                   :: map (done content_threshold) pre |}).
Proof.
  intros Hpre Hf. unfold process_all_files.
  destruct (pre ++ f :: post) as [|x xs] eqn:E.
  - destruct pre; discriminate.
  - rewrite <- E. unfold io_bind at 1. unfold print at 1.
    unfold io_bind at 1.
    rewrite process_loop_stops with (e := e) by assumption.
    reflexivity.
Qed.

Lemma C7_failure_ends_the_batch_witness :
  process_all_files (fun _ => true) 50
    ([ {| stem_of := lit "a"; read_lines := Some [lit "x"] |} ]
     ++ {| stem_of := lit "b"; read_lines := None |}
     :: [ {| stem_of := lit "c"; read_lines := Some [lit "y"] |} ])
    empty_world
  = (Raised (ReadError (lit "b")),
     {| disk := [ {| w_section := lit "UNKNOWN"; w_path := lit "a.txt";
                     w_lines := [lit "x"] |} ];
        printed := [Found 3; FileDone (lit "a") 1] |}).
Proof.
  exact (@C7_failure_ends_the_batch (fun _ => true) 50
           [ {| stem_of := lit "a"; read_lines := Some [lit "x"] |} ]
           {| stem_of := lit "b"; read_lines := None |}
           [ {| stem_of := lit "c"; read_lines := Some [lit "y"] |} ]
           (ReadError (lit "b")) eq_refl eq_refl).
Defined.

(** * Further properties of the code *)

(** ** Where the patterns can match *)

Lemma SECTION_TOKEN_RE_head (c : char) (s : str) :
  c <> LBRACE -> SECTION_TOKEN_RE (c :: s) = None.
Proof.
  intros Hc. unfold SECTION_TOKEN_RE. simpl.
  destruct (N.eqb_spec c LBRACE); [contradiction | reflexivity].
Qed.

Lemma SECTION_DASH_TOKEN_RE_head (c : char) (s : str) :
  c <> LBRACE -> SECTION_DASH_TOKEN_RE (c :: s) = None.
Proof.
  intros Hc. unfold SECTION_DASH_TOKEN_RE. simpl.
  destruct (N.eqb_spec c LBRACE); [contradiction | reflexivity].
Qed.

Lemma heads_variant : heads TEXT_VARIANT_RE LBRACE.
Proof. exact TEXT_VARIANT_RE_head. Qed.
Lemma heads_section : heads SECTION_TOKEN_RE LBRACE.
Proof. exact SECTION_TOKEN_RE_head. Qed.
Lemma heads_dash : heads SECTION_DASH_TOKEN_RE LBRACE.
Proof. exact SECTION_DASH_TOKEN_RE_head. Qed.
Lemma heads_page : heads BRACKET_PAGE_RE LBRACKET.
Proof. exact BRACKET_PAGE_RE_head. Qed.
Lemma heads_dotted : heads BRACKET_WITH_DOT_RE LBRACKET.
Proof. exact BRACKET_WITH_DOT_RE_head. Qed.

#[local] Hint Resolve heads_variant heads_section heads_dash heads_page
  heads_dotted : core.

Lemma matcher_nil {G} (m : matcher G) : consumes m -> m [] = None.
Proof.
  intros Hm. destruct (m []) as [[g r]|] eqn:E; [|reflexivity].
  apply Hm in E. simpl in E. lia.
Qed.

Lemma search_without_head {G} (m : matcher G) (h : char) (s : str) :
  consumes m -> heads m h -> has_char h s = false -> re_search m s = None.
Proof.
  intros Hm Hh H. apply has_char_false in H.
  induction s as [|c s IH]; simpl.
  - now rewrite matcher_nil.
  - rewrite Hh.
    + apply IH. intros Hin. apply H. now right.
    + intros ->. apply H. now left.
Qed.

Lemma sub_without_head {G} (m : matcher G) (r : G -> str) (h : char)
    (s : str) :
  consumes m -> heads m h -> has_char h s = false -> re_sub m r s = s.
Proof.
  intros Hm Hh H. apply re_sub_no_match; auto.
  now apply search_without_head with (h := h).
Qed.

Lemma plain_parts (s : str) :
  plain s = true -> has_char LBRACE s = false /\ has_char LBRACKET s = false.
Proof.
  unfold plain. intros H. apply andb_prop in H as [H1 H2].
  now rewrite negb_true_iff in H1, H2.
Qed.

Lemma has_char_app (c : char) (u v : str) :
  has_char c (u ++ v) = has_char c u || has_char c v.
Proof. unfold has_char. apply existsb_app. Qed.

Lemma plain_app (u v : str) : plain (u ++ v) = plain u && plain v.
Proof.
  unfold plain. rewrite !has_char_app, !negb_orb.
  destruct (has_char LBRACE u), (has_char LBRACE v),
    (has_char LBRACKET u), (has_char LBRACKET v); reflexivity.
Qed.

Lemma re_search_some {G} (m : matcher G) (s : str) (r : G * str) :
  re_search m s = Some r -> exists pre s', s = pre ++ s' /\ m s' = Some r.
Proof.
  induction s as [|c s IH]; simpl.
  - destruct (m []) eqn:E; [|discriminate].
    intros H. injection H as <-. exists [], []. auto.
  - destruct (m (c :: s)) eqn:E.
    + intros H. injection H as <-. exists [], (c :: s). auto.
    + intros H. destruct (IH H) as (pre & s' & -> & Hs).
      exists (c :: pre), s'. auto.
Qed.

(** ** [process_line] *)

(** X1: A line without an opening brace or bracket holds no markup:
    [process_line] returns it as it is, with no section and no page-marker
    flag. *)
Theorem process_line_plain (line : str) :
  plain line = true -> process_line line = (line, None, false).
Proof.
  intros H. apply plain_parts in H as [Hb Hk].
  unfold process_line, collapse_variants, delete_dotted, delete_dash_tokens.
  rewrite sub_without_head with (m := TEXT_VARIANT_RE) (h := LBRACE)
    by auto.
  rewrite sub_without_head with (m := BRACKET_WITH_DOT_RE) (h := LBRACKET)
    by auto.
  rewrite sub_without_head with (m := SECTION_DASH_TOKEN_RE) (h := LBRACE)
    by auto.
  rewrite search_without_head with (h := LBRACE) by auto.
  unfold re_test.
  now rewrite search_without_head with (h := LBRACKET) by auto.
Qed.

Lemma process_line_plain_witness :
  process_line (lit "plain text, with } and ] only")
  = (lit "plain text, with } and ] only", None, false).
Proof.
  exact (@process_line_plain (lit "plain text, with } and ] only") eq_refl).
Defined.

(** X2: The section token that [process_line] returns is "D", one or more
    decimal digits and at most one lower-case letter. *)
Theorem section_token_shape (line tok : str) :
  token_of line = Some tok ->
  exists num letter,
    tok = token_text num letter
    /\ num <> [] /\ all is_digit num
    /\ match letter with Some l => is_lower l = true | None => True end.
Proof.
  unfold token_of, process_line.
  destruct (re_search SECTION_TOKEN_RE _) as [[[num letter] rest]|] eqn:E;
    simpl; intros H; inversion H; subst.
  apply re_search_some in E as (pre & s' & _ & E).
  apply SECTION_TOKEN_RE_some in E as (Hne & Hd & Hl).
  exists num, letter. repeat split; auto.
  destruct letter; [tauto | exact I].
Qed.

Lemma section_token_shape_witness :
  exists num letter,
    lit "D12a" = token_text num letter
    /\ num <> [] /\ all is_digit num
    /\ match letter with Some l => is_lower l = true | None => True end.
Proof.
  exact (@section_token_shape (lit "x{D12a}y") (lit "D12a") eq_refl).
Defined.



(** ** A line with one piece of markup *)

Lemma sub_plain_prefix {G} (m : matcher G) (r : G -> str) (h : char)
    (pre x : str) :
  consumes m -> heads m h -> has_char h pre = false ->
  re_sub m r (pre ++ x) = pre ++ re_sub m r x.
Proof.
  intros Hm Hh H. apply has_char_false in H.
  induction pre as [|c pre IH]; [reflexivity|].
  simpl. rewrite re_sub_miss; auto.
  - rewrite IH; auto. intros Hin. apply H. now right.
  - apply Hh. intros ->. apply H. now left.
Qed.

Lemma search_plain_prefix {G} (m : matcher G) (h : char) (pre x : str) :
  heads m h -> has_char h pre = false ->
  x <> [] -> re_search m (pre ++ x) = re_search m x.
Proof.
  intros Hh H Hx. apply has_char_false in H.
  induction pre as [|c pre IH]; [reflexivity|].
  simpl. rewrite Hh.
  - apply IH. intros Hin. apply H. now right.
  - intros ->. apply H. now left.
Qed.

Lemma sub_hit_single {G} (m : matcher G) (r : G -> str) (h : char)
    (pre tok post : str) (g : G) :
  consumes m -> heads m h ->
  has_char h pre = false -> has_char h post = false ->
  m (tok ++ post) = Some (g, post) ->
  re_sub m r (pre ++ tok ++ post) = pre ++ r g ++ post.
Proof.
  intros Hm Hh Hpre Hpost E.
  rewrite sub_plain_prefix with (h := h) by assumption.
  rewrite re_sub_hit with (g := g) (rest := post) by assumption.
  now rewrite sub_without_head with (h := h).
Qed.

Lemma search_hit_single {G} (m : matcher G) (h : char)
    (pre tok post : str) (r : G * str) :
  consumes m -> heads m h -> has_char h pre = false ->
  m (tok ++ post) = Some r ->
  re_search m (pre ++ tok ++ post) = Some r.
Proof.
  intros Hm Hh Hpre E.
  assert (Hne : tok ++ post <> []).
  { intros Hn. rewrite Hn, matcher_nil in E by assumption. discriminate. }
  rewrite search_plain_prefix with (h := h) by assumption.
  destruct (tok ++ post); [congruence|]. simpl. now rewrite E.
Qed.

Lemma search_miss_single {G} (m : matcher G) (h : char) (pre : str)
    (c : char) (x : str) :
  consumes m -> heads m h -> has_char h pre = false ->
  m (c :: x) = None -> has_char h x = false ->
  re_search m (pre ++ c :: x) = None.
Proof.
  intros Hm Hh Hpre E Hx.
  rewrite search_plain_prefix with (h := h) by (auto; discriminate).
  simpl. rewrite E. now apply search_without_head with (h := h).
Qed.

Lemma digit_facts (c : char) :
  is_digit c = true ->
  not_comma_rbrace c = true /\ c <> LBRACE /\ c <> LBRACKET.
Proof.
  intros H. repeat split.
  - unfold not_comma_rbrace.
    destruct (N.eqb_spec c COMMA) as [->|_]; [discriminate H|].
    destruct (N.eqb_spec c RBRACE) as [->|_]; [discriminate H|].
    reflexivity.
  - intros ->. discriminate H.
  - intros ->. discriminate H.
Qed.

Lemma lower_facts (c : char) :
  is_lower c = true ->
  not_comma_rbrace c = true /\ c <> LBRACE /\ c <> LBRACKET.
Proof.
  unfold is_lower, not_comma_rbrace. intros H.
  apply andb_prop in H as [H1 H2]. apply N.leb_le in H1, H2.
  repeat split.
  - destruct (N.eqb_spec c COMMA) as [->|_]; [unfold COMMA in *; lia|].
    destruct (N.eqb_spec c RBRACE) as [->|_]; [unfold RBRACE in *; lia|].
    reflexivity.
  - intros ->. unfold LBRACE in *. lia.
  - intros ->. unfold LBRACKET in *. lia.
Qed.

Lemma digits_ncr (ds : str) : all is_digit ds -> all not_comma_rbrace ds.
Proof.
  unfold all. rewrite !forallb_forall. intros H c Hc.
  now apply digit_facts, H.
Qed.

Lemma digits_plain (ds : str) : all is_digit ds -> plain ds = true.
Proof.
  unfold all, plain. intros H. rewrite forallb_forall in H.
  apply andb_true_intro. split; apply negb_true_iff, has_char_false;
    intros Hin; apply H, digit_facts in Hin; tauto.
Qed.

Lemma plain_single (c : char) :
  c <> LBRACE -> c <> LBRACKET -> plain [c] = true.
Proof.
  intros H1 H2. unfold plain. apply andb_true_intro.
  split; apply negb_true_iff, has_char_false; intros [H | []]; congruence.
Qed.

(** The text of a section token *)
Lemma section_token_text (tok num : str) (letter : option char) :
  SECTION_TOKEN_RE tok = Some ((num, letter), []) ->
  tok = LBRACE :: token_text num letter ++ [RBRACE]
  /\ plain (token_text num letter ++ [RBRACE]) = true
  /\ all not_comma_rbrace (token_text num letter)
  /\ forall post, SECTION_TOKEN_RE (tok ++ post) = Some ((num, letter), post).
Proof.
  intros E. apply SECTION_TOKEN_RE_some in E as (Hne & Hd & Hs).
  assert (Hl : match letter with
               | Some l => is_lower l = true | None => True end)
    by (destruct letter; tauto).
  assert (Ht : tok = LBRACE :: token_text num letter ++ [RBRACE]).
  { unfold token_text. destruct letter as [l|].
    - destruct Hs as [_ ->]. simpl. now rewrite <- app_assoc.
    - rewrite Hs. simpl. now rewrite app_nil_r. }
  split; [exact Ht|]. split; [|split].
  - unfold token_text. change (UPPER_D :: ?x) with ([UPPER_D] ++ x).
    rewrite !plain_app, (digits_plain Hd).
    destruct letter as [l|]; [|reflexivity].
    apply lower_facts in Hl as (_ & H1 & H2).
    rewrite (plain_single H1 H2). reflexivity.
  - unfold token_text, all. simpl. rewrite forallb_app.
    rewrite (digits_ncr Hd). destruct letter as [l|]; [|reflexivity].
    simpl. apply lower_facts in Hl as (-> & _). reflexivity.
  - intros post. apply SECTION_TOKEN_RE_some. repeat split; auto.
    destruct letter as [l|].
    + destruct Hs as [Hlow ->]. split; [assumption|].
      simpl. now rewrite <- app_assoc.
    + rewrite Hs. simpl. now rewrite <- app_assoc.
Qed.

Lemma dash_token_text (tok : str) :
  fullmatch SECTION_DASH_TOKEN_RE tok = true ->
  exists t, tok = LBRACE :: t ++ [RBRACE]
    /\ plain (t ++ [RBRACE]) = true
    /\ all not_comma_rbrace t
    /\ forall post, SECTION_DASH_TOKEN_RE (tok ++ post) = Some (tt, post).
Proof.
  unfold fullmatch.
  destruct (SECTION_DASH_TOKEN_RE tok) as [[[] [|c r]]|] eqn:E;
    try discriminate.
  intros _.
  apply SECTION_DASH_TOKEN_RE_some in E as (ds & es & -> & Hne & Hd & Hne' & He).
  exists (UPPER_D :: ds ++ DASH :: es). split; [|split; [|split]].
  - simpl. now rewrite <- app_assoc.
  - change (UPPER_D :: ds ++ DASH :: es)
      with ([UPPER_D] ++ ds ++ [DASH] ++ es).
    rewrite !plain_app, (digits_plain Hd), (digits_plain He). reflexivity.
  - unfold all. simpl. rewrite forallb_app. simpl.
    now rewrite (digits_ncr Hd), (digits_ncr He).
  - intros post. apply SECTION_DASH_TOKEN_RE_some. exists ds, es.
    simpl. rewrite <- !app_assoc. simpl. rewrite <- app_assoc. auto 8.
Qed.

(** No text variant starts at a brace that is closed before any comma. *)
Lemma variant_misses_closed (t post : str) :
  all not_comma_rbrace t ->
  TEXT_VARIANT_RE (LBRACE :: t ++ RBRACE :: post) = None.
Proof.
  intros Ht.
  assert (Q : quiet (LBRACE :: t) (RBRACE :: post)).
  { apply quiet_left_no_comma; [exact Ht | reflexivity | discriminate]. }
  apply (Q [] (LBRACE :: t)); [reflexivity | discriminate].
Qed.

Lemma page_dotted_disjoint (s : str) :
  BRACKET_PAGE_RE s = None \/ BRACKET_WITH_DOT_RE s = None.
Proof.
  destruct (BRACKET_PAGE_RE s) as [[[] r]|] eqn:E1; [right | now left].
  destruct (BRACKET_WITH_DOT_RE s) as [[[] r']|] eqn:E2; [exfalso | auto].
  apply BRACKET_PAGE_RE_some in E1 as (ds & l & -> & _ & Hd & Hl).
  apply BRACKET_WITH_DOT_RE_some in E2
    as (ds' & l' & es & E & _ & Hd' & Hl' & _).
  injection E as E.
  assert (S1 : span is_digit (ds ++ l :: RBRACKET :: r)
               = (ds, l :: RBRACKET :: r))
    by (apply span_intro; auto; now apply lower_not_digit).
  assert (S2 : span is_digit (ds' ++ l' :: DOT :: es ++ RBRACKET :: r')
               = (ds', l' :: DOT :: es ++ RBRACKET :: r'))
    by (apply span_intro; auto; now apply lower_not_digit).
  rewrite E, S2 in S1. injection S1 as _ _ S1. discriminate.
Qed.

Lemma section_dash_disjoint (s : str) :
  SECTION_TOKEN_RE s = None \/ SECTION_DASH_TOKEN_RE s = None.
Proof.
  destruct (SECTION_TOKEN_RE s) as [[[num letter] r]|] eqn:E1;
    [right | now left].
  destruct (SECTION_DASH_TOKEN_RE s) as [[[] r']|] eqn:E2;
    [exfalso | auto].
  apply SECTION_TOKEN_RE_some in E1 as (_ & Hd & Hs).
  apply SECTION_DASH_TOKEN_RE_some in E2 as (ds & es & E & _ & Hd' & _).
  assert (S2 : span is_digit (ds ++ DASH :: es ++ RBRACE :: r')
               = (ds, DASH :: es ++ RBRACE :: r'))
    by (apply span_intro; auto; reflexivity).
  destruct letter as [l|]; [destruct Hs as [Hl Hs]|];
    rewrite Hs in E; injection E as E.
  - assert (S1 : span is_digit (num ++ l :: RBRACE :: r)
                 = (num, l :: RBRACE :: r))
      by (apply span_intro; auto; now apply lower_not_digit).
    rewrite E, S2 in S1. injection S1 as _ S1 _. subst l. discriminate.
  - assert (S1 : span is_digit (num ++ RBRACE :: r) = (num, RBRACE :: r))
      by (apply span_intro; auto; reflexivity).
    rewrite E, S2 in S1. injection S1 as _ S1 _. discriminate.
Qed.

Lemma process_line_stages (line l1 l2 l3 : str) :
  collapse_variants line = l1 ->
  delete_dotted l1 = l2 ->
  delete_dash_tokens l2 = l3 ->
  process_line line
  = match re_search SECTION_TOKEN_RE l3 with
    | Some ((n, l), _) =>
        (re_sub SECTION_TOKEN_RE (fun _ => []) l3, Some (token_text n l),
         re_test BRACKET_PAGE_RE (re_sub SECTION_TOKEN_RE (fun _ => []) l3))
    | None => (l3, None, re_test BRACKET_PAGE_RE l3)
    end.
Proof. intros <- <- <-. reflexivity. Qed.

Lemma no_bracket_no_page (s : str) :
  has_char LBRACKET s = false -> re_test BRACKET_PAGE_RE s = false.
Proof.
  intros H. unfold re_test.
  now rewrite search_without_head with (h := LBRACKET) by auto.
Qed.

(** Once the line is plain, the rest of [process_line] changes nothing. *)
Lemma process_line_plain_from (line l1 l2 l3 : str) :
  collapse_variants line = l1 ->
  delete_dotted l1 = l2 ->
  delete_dash_tokens l2 = l3 ->
  plain l3 = true ->
  process_line line = (l3, None, false).
Proof.
  intros H1 H2 H3 Hp. rewrite (@process_line_stages _ _ _ _ H1 H2 H3).
  apply plain_parts in Hp as [Hb Hk].
  rewrite search_without_head with (h := LBRACE) by auto.
  now rewrite no_bracket_no_page.
Qed.

Lemma has_char_cons (c x : char) (s : str) :
  has_char c (x :: s) = (c =? x)%N || has_char c s.
Proof. reflexivity. Qed.

Ltac chars :=
  repeat match goal with
  | H : plain _ = true |- _ => apply plain_parts in H as [? ?]
  end;
  repeat (rewrite has_char_app || rewrite has_char_cons);
  repeat match goal with
  | H : has_char _ _ = false |- _ => rewrite H
  end;
  try reflexivity.

(** X4: A section token in otherwise plain text is removed from the line and
    returned as the section. *)
Theorem process_line_section_token
    (pre tok post num : str) (letter : option char) :
  plain pre = true -> plain post = true ->
  SECTION_TOKEN_RE tok = Some ((num, letter), []) ->
  process_line (pre ++ tok ++ post)
  = (pre ++ post, Some (token_text num letter), false).
Proof.
  intros Hpre Hpost E.
  destruct (@section_token_text _ _ _ E) as (Ht & Hp & Hn & Hext).
  pose proof (Hext post) as Ehit.
  set (T := token_text num letter) in *.
  assert (X : tok ++ post = LBRACE :: T ++ RBRACE :: post)
    by (rewrite Ht; simpl; now rewrite <- app_assoc).
  apply plain_parts in Hp as [HT1 HT2].
  rewrite has_char_app in HT1, HT2.
  apply orb_false_elim in HT1 as [HT1 _], HT2 as [HT2 _].
  assert (C1 : collapse_variants (pre ++ tok ++ post) = pre ++ tok ++ post).
  { apply re_sub_no_match; auto. rewrite X.
    apply search_miss_single with (h := LBRACE); auto.
    - chars.
    - now apply variant_misses_closed.
    - chars. }
  assert (C2 : delete_dotted (pre ++ tok ++ post) = pre ++ tok ++ post).
  { apply sub_without_head with (h := LBRACKET); auto. rewrite X. chars. }
  assert (C3 : delete_dash_tokens (pre ++ tok ++ post) = pre ++ tok ++ post).
  { apply re_sub_no_match; auto. rewrite X.
    apply search_miss_single with (h := LBRACE); auto.
    - chars.
    - rewrite <- X. destruct (section_dash_disjoint (tok ++ post)); congruence.
    - chars. }
  rewrite (@process_line_stages _ _ _ _ C1 C2 C3).
  rewrite search_hit_single
    with (h := LBRACE) (r := ((num, letter), post)); auto; [|chars].
  rewrite sub_hit_single with (h := LBRACE) (g := (num, letter)); auto;
    [|chars|chars].
  simpl. rewrite no_bracket_no_page; [reflexivity | chars].
Qed.

Lemma process_line_section_token_witness :
  process_line (lit "ab " ++ lit "{D12a}" ++ lit " cd")
  = (lit "ab  cd", Some (lit "D12a"), false).
Proof.
  exact (@process_line_section_token (lit "ab ") (lit "{D12a}") (lit " cd")
           (lit "12") (Some 97%N) eq_refl eq_refl eq_refl).
Defined.

(** X5: A section dash token in otherwise plain text is removed from the
    line and yields no section. *)
Theorem process_line_dash_token (pre tok post : str) :
  plain pre = true -> plain post = true ->
  fullmatch SECTION_DASH_TOKEN_RE tok = true ->
  process_line (pre ++ tok ++ post) = (pre ++ post, None, false).
Proof.
  intros Hpre Hpost E.
  destruct (dash_token_text _ E) as (T & Ht & Hp & Hn & Hext).
  pose proof (Hext post) as Ehit.
  assert (X : tok ++ post = LBRACE :: T ++ RBRACE :: post)
    by (rewrite Ht; simpl; now rewrite <- app_assoc).
  assert (Hpp : plain (pre ++ post) = true)
    by (rewrite plain_app, Hpre, Hpost; reflexivity).
  apply plain_parts in Hp as [HT1 HT2].
  rewrite has_char_app in HT1, HT2.
  apply orb_false_elim in HT1 as [HT1 _], HT2 as [HT2 _].
  assert (C1 : collapse_variants (pre ++ tok ++ post) = pre ++ tok ++ post).
  { apply re_sub_no_match; auto. rewrite X.
    apply search_miss_single with (h := LBRACE); auto.
    - chars.
    - now apply variant_misses_closed.
    - chars. }
  assert (C2 : delete_dotted (pre ++ tok ++ post) = pre ++ tok ++ post).
  { apply sub_without_head with (h := LBRACKET); auto. rewrite X. chars. }
  assert (C3 : delete_dash_tokens (pre ++ tok ++ post) = pre ++ post).
  { unfold delete_dash_tokens.
    rewrite sub_hit_single with (h := LBRACE) (g := tt); auto; chars. }
  exact (@process_line_plain_from _ _ _ _ C1 C2 C3 Hpp).
Qed.

Lemma process_line_dash_token_witness :
  process_line (lit "ab " ++ lit "{D1-1}" ++ lit " cd")
  = (lit "ab  cd", None, false).
Proof.
  exact (@process_line_dash_token (lit "ab ") (lit "{D1-1}") (lit " cd")
           eq_refl eq_refl eq_refl).
Defined.

(** X6: A dotted page marker in otherwise plain text is removed from the
    line and sets no page-marker flag. *)
Theorem process_line_dotted_marker (pre mk post : str) :
  plain pre = true -> plain post = true ->
  fullmatch BRACKET_WITH_DOT_RE mk = true ->
  process_line (pre ++ mk ++ post) = (pre ++ post, None, false).
Proof.
  intros Hpre Hpost E.
  assert (Hpp : plain (pre ++ post) = true)
    by (rewrite plain_app, Hpre, Hpost; reflexivity).
  destruct (page_misses_dotted mk post E) as (t & Ht & Hn & _).
  destruct (fullmatch_dotted _ E) as (ds & l & es & Hmk & _ & Hd & Hl & _ & He).
  assert (Hb : has_char LBRACE mk = false).
  { rewrite Hmk. change (LBRACKET :: ?x) with ([LBRACKET] ++ x).
    apply lower_facts in Hl as (_ & Hl & _).
    pose proof (digits_plain Hd) as P1. pose proof (digits_plain He) as P2.
    apply plain_parts in P1 as [P1 _], P2 as [P2 _].
    change (l :: DOT :: es ++ [RBRACKET])
      with ([l] ++ [DOT] ++ es ++ [RBRACKET]).
    rewrite !has_char_app, P1, P2.
    assert (has_char LBRACE [l] = false) as ->
      by (apply has_char_false; intros [H | []]; congruence).
    reflexivity. }
  assert (C1 : collapse_variants (pre ++ mk ++ post) = pre ++ mk ++ post).
  { apply sub_without_head with (h := LBRACE); auto. chars. }
  assert (C2 : delete_dotted (pre ++ mk ++ post) = pre ++ post).
  { rewrite delete_dotted_marker by assumption.
    unfold delete_dotted.
    rewrite !sub_without_head with (h := LBRACKET); auto; chars. }
  assert (C3 : delete_dash_tokens (pre ++ post) = pre ++ post).
  { apply sub_without_head with (h := LBRACE); auto. chars. }
  exact (@process_line_plain_from _ _ _ _ C1 C2 C3 Hpp).
Qed.

Lemma process_line_dotted_marker_witness :
  process_line (lit "ab " ++ lit "[12c.34]" ++ lit " cd")
  = (lit "ab  cd", None, false).
Proof.
  exact (@process_line_dotted_marker (lit "ab ") (lit "[12c.34]") (lit " cd")
           eq_refl eq_refl eq_refl).
Defined.

Lemma fullmatch_page (mk : str) :
  fullmatch BRACKET_PAGE_RE mk = true ->
  exists t, mk = LBRACKET :: t
    /\ has_char LBRACE t = false /\ has_char LBRACKET t = false
    /\ forall post, BRACKET_PAGE_RE (mk ++ post) = Some (tt, post).
Proof.
  unfold fullmatch.
  destruct (BRACKET_PAGE_RE mk) as [[[] [|c r]]|] eqn:E; try discriminate.
  intros _. apply BRACKET_PAGE_RE_some in E as (ds & l & -> & Hne & Hd & Hl).
  exists (ds ++ [l; RBRACKET]).
  pose proof (digits_plain Hd) as P. apply plain_parts in P as [P1 P2].
  pose proof (lower_facts _ Hl) as (_ & L1 & L2).
  split; [reflexivity|]. split; [|split].
  - rewrite has_char_app, P1, !has_char_cons.
    destruct (N.eqb_spec LBRACE l); [congruence | reflexivity].
  - rewrite has_char_app, P2, !has_char_cons.
    destruct (N.eqb_spec LBRACKET l); [congruence | reflexivity].
  - intros post. apply BRACKET_PAGE_RE_some. exists ds, l.
    simpl. rewrite <- app_assoc. auto.
Qed.

(** X7: A bare page marker in otherwise plain text stays in the line and
    sets the page-marker flag. *)
Theorem process_line_bare_marker (pre mk post : str) :
  plain pre = true -> plain post = true ->
  fullmatch BRACKET_PAGE_RE mk = true ->
  process_line (pre ++ mk ++ post) = (pre ++ mk ++ post, None, true).
Proof.
  intros Hpre Hpost E.
  destruct (fullmatch_page _ E) as (t & Ht & Hb & Hk & Hext).
  pose proof (Hext post) as Ehit.
  assert (X : mk ++ post = LBRACKET :: t ++ post) by (now rewrite Ht).
  assert (B : has_char LBRACE (pre ++ mk ++ post) = false)
    by (rewrite X; chars).
  assert (C1 : collapse_variants (pre ++ mk ++ post) = pre ++ mk ++ post)
    by (apply sub_without_head with (h := LBRACE); auto).
  assert (C2 : delete_dotted (pre ++ mk ++ post) = pre ++ mk ++ post).
  { apply re_sub_no_match; auto. rewrite X.
    apply search_miss_single with (h := LBRACKET); auto.
    - chars.
    - rewrite <- X. destruct (page_dotted_disjoint (mk ++ post)); congruence.
    - chars. }
  assert (C3 : delete_dash_tokens (pre ++ mk ++ post) = pre ++ mk ++ post)
    by (apply sub_without_head with (h := LBRACE); auto).
  rewrite (@process_line_stages _ _ _ _ C1 C2 C3).
  rewrite search_without_head with (h := LBRACE) by auto.
  unfold re_test.
  rewrite search_hit_single with (h := LBRACKET) (r := (tt, post)); auto.
  chars.
Qed.

Lemma process_line_bare_marker_witness :
  process_line (lit "ab " ++ lit "[12c]" ++ lit " cd")
  = (lit "ab [12c] cd", None, true).
Proof.
  exact (@process_line_bare_marker (lit "ab ") (lit "[12c]") (lit " cd")
           eq_refl eq_refl eq_refl).
Defined.

(** X8: A text variant {A,B} in otherwise plain text is replaced by its right
    side B, when B is plain too; the left side may hold anything. *)
Theorem process_line_variant (pre tok post a b : str) :
  plain pre = true -> plain post = true -> plain b = true ->
  TEXT_VARIANT_RE tok = Some ((a, b), []) ->
  process_line (pre ++ tok ++ post) = (pre ++ b ++ post, None, false).
Proof.
  intros Hpre Hpost Hb E.
  assert (Ehit : TEXT_VARIANT_RE (tok ++ post) = Some ((a, b), post)).
  { apply TEXT_VARIANT_RE_some in E as (-> & H).
    apply TEXT_VARIANT_RE_some. split; [|exact H].
    simpl. rewrite <- !app_assoc. simpl. now rewrite <- app_assoc. }
  assert (Hpp : plain (pre ++ b ++ post) = true)
    by (rewrite !plain_app, Hpre, Hb, Hpost; reflexivity).
  assert (C1 : collapse_variants (pre ++ tok ++ post) = pre ++ b ++ post).
  { unfold collapse_variants.
    rewrite sub_hit_single with (h := LBRACE) (g := (a, b)); auto; chars. }
  assert (C2 : delete_dotted (pre ++ b ++ post) = pre ++ b ++ post).
  { apply sub_without_head with (h := LBRACKET); auto.
    apply plain_parts in Hpp. tauto. }
  assert (C3 : delete_dash_tokens (pre ++ b ++ post) = pre ++ b ++ post).
  { apply sub_without_head with (h := LBRACE); auto.
    apply plain_parts in Hpp. tauto. }
  exact (@process_line_plain_from _ _ _ _ C1 C2 C3 Hpp).
Qed.

Lemma process_line_variant_witness :
  process_line (lit "ab " ++ lit "{x{[,yz}" ++ lit " cd")
  = (lit "ab yz cd", None, false).
Proof.
  exact (@process_line_variant (lit "ab ") (lit "{x{[,yz}") (lit " cd")
           (lit "x{[") (lit "yz") eq_refl eq_refl eq_refl eq_refl).
Defined.

(** ** [is_meaningful_line] *)

Lemma dropwhile_nil (p : char -> bool) (s : str) :
  dropwhile p s = [] <-> forallb p s = true.
Proof.
  induction s as [|c s IH]; simpl; [tauto|].
  destruct (p c); simpl; [exact IH|]. split; discriminate.
Qed.

Lemma dropwhile_in (p : char -> bool) (s : str) (c : char) :
  In c (dropwhile p s) -> In c s.
Proof.
  induction s as [|x s IH]; simpl; [tauto|].
  destruct (p x); simpl; auto.
Qed.

Lemma dropwhile_head (p : char -> bool) (s : str) (c : char) (r : str) :
  dropwhile p s = c :: r -> p c = false.
Proof.
  induction s as [|x s IH]; simpl; [discriminate|].
  destruct (p x) eqn:E; [exact IH|]. intros H. now inversion H; subst.
Qed.

Lemma forallb_rev (p : char -> bool) (s : str) :
  forallb p (rev s) = forallb p s.
Proof.
  induction s as [|c s IH]; [reflexivity|].
  simpl. rewrite forallb_app, IH. simpl.
  destruct (forallb p s), (p c); reflexivity.
Qed.

Lemma strip_nil (s : str) : strip s = [] <-> forallb is_space s = true.
Proof.
  unfold strip. split.
  - intros H. apply (f_equal (@rev char)) in H. rewrite rev_involutive in H.
    simpl in H. apply dropwhile_nil in H. rewrite forallb_rev in H.
    destruct (dropwhile is_space s) as [|c r] eqn:E.
    + now apply dropwhile_nil.
    + apply dropwhile_head in E. simpl in H. rewrite E in H. discriminate.
  - intros H. apply dropwhile_nil in H. rewrite H. reflexivity.
Qed.

Lemma strip_in (s : str) (c : char) : In c (strip s) -> In c s.
Proof.
  unfold strip. intros H. apply in_rev, dropwhile_in in H.
  apply in_rev, dropwhile_in in H. exact H.
Qed.

(** What is left after stripping is white space only if the text was. *)
Lemma strip_all_space (s : str) :
  forallb is_space (strip s) = forallb is_space s.
Proof.
  destruct (forallb is_space s) eqn:E.
  - apply strip_nil in E. now rewrite E.
  - destruct (forallb is_space (strip s)) eqn:E'; [|reflexivity].
    exfalso. unfold strip in E'. rewrite forallb_rev in E'.
    destruct (dropwhile is_space (rev (dropwhile is_space s)))
      as [|c r] eqn:D.
    + apply dropwhile_nil in D. rewrite forallb_rev in D.
      destruct (dropwhile is_space s) as [|x r] eqn:D'.
      * apply dropwhile_nil in D'. congruence.
      * apply dropwhile_head in D'. simpl in D. rewrite D' in D.
        discriminate.
    + apply dropwhile_head in D. simpl in E'. rewrite D in E'.
      discriminate.
Qed.

Lemma length_pos_strip (s : str) :
  (0 <? length (strip s)) = negb (forallb is_space s).
Proof.
  destruct (forallb is_space s) eqn:E.
  - apply strip_nil in E. now rewrite E.
  - destruct (strip s) eqn:S; [|reflexivity].
    apply strip_nil in S. congruence.
Qed.

Lemma existsb_not_all (p : char -> bool) (s : str) :
  existsb (fun c => negb (p c)) s = negb (forallb p s).
Proof.
  induction s as [|c s IH]; [reflexivity|].
  simpl. rewrite IH. now destruct (p c), (forallb p s).
Qed.

(** X9: Without an opening bracket there is no marker to delete: the line is
    meaningful exactly when one of its characters is not white space. *)
Theorem is_meaningful_line_without_bracket (line : str) :
  has_char LBRACKET line = false ->
  is_meaningful_line line = existsb (fun c => negb (is_space c)) line.
Proof.
  intros H. unfold is_meaningful_line.
  rewrite sub_without_head with (m := BRACKET_PAGE_RE) (h := LBRACKET)
    by auto.
  rewrite sub_without_head with (m := BRACKET_WITH_DOT_RE) (h := LBRACKET);
    auto.
  - now rewrite length_pos_strip, strip_all_space, existsb_not_all.
  - apply has_char_false. intros Hin. apply strip_in in Hin.
    apply has_char_false in H. contradiction.
Qed.

Lemma is_meaningful_line_without_bracket_witness :
  is_meaningful_line (lit "  x] ") = true.
Proof.
  exact (@is_meaningful_line_without_bracket (lit "  x] ") eq_refl).
Defined.

Lemma space_no_bracket (s : str) :
  forallb is_space s = true -> has_char LBRACKET s = false.
Proof.
  intros H. apply has_char_false. intros Hin.
  rewrite forallb_forall in H. apply H in Hin. discriminate.
Qed.

Lemma space_filler_text (s y : str) :
  forallb is_space s = true -> filler_text y -> filler_text (s ++ y).
Proof.
  induction s as [|c s IH]; simpl; intros H Hy; [exact Hy|].
  apply andb_prop in H as [Hc H]. constructor; auto.
Qed.

(** Deleting the bare markers of a line made of fillers leaves white
    space and dotted markers. *)
Lemma page_sub_fillers (items : list str) :
  forallb filler items = true ->
  filler_text (re_sub BRACKET_PAGE_RE (fun _ => []) (concat items)).
Proof.
  induction items as [|it items IH]; simpl; intros H; [constructor|].
  apply andb_prop in H as [Hit H]. specialize (IH H).
  unfold filler in Hit.
  apply orb_prop in Hit as [Hit | Hd]; [apply orb_prop in Hit as [Hs | Hp]|].
  - rewrite sub_plain_prefix with (h := LBRACKET); auto.
    + now apply space_filler_text.
    + now apply space_no_bracket.
  - destruct (fullmatch_page _ Hp) as (t & _ & _ & _ & Hext).
    rewrite re_sub_hit with (g := tt) (rest := concat items); auto.
  - destruct (page_misses_dotted it (concat items) Hd) as (t & -> & Hn & Hm).
    simpl. simpl in Hm. rewrite re_sub_miss by auto.
    rewrite sub_plain_prefix with (h := LBRACKET); auto.
    + change (LBRACKET :: t ++ ?x) with ((LBRACKET :: t) ++ x).
      now constructor.
    + now apply has_char_false.
Qed.

Lemma dotted_ends (mk : str) :
  fullmatch BRACKET_WITH_DOT_RE mk = true ->
  exists t, mk = LBRACKET :: t ++ [RBRACKET].
Proof.
  intros H.
  destruct (fullmatch_dotted _ H) as (ds & l & es & -> & _).
  exists (ds ++ l :: DOT :: es). now rewrite <- app_assoc.
Qed.

Lemma filler_text_tail (c : char) (y : str) :
  filler_text (c :: y) -> is_space c = true -> filler_text y.
Proof.
  intros H Hc. inversion H as [| c' y' _ Hy | mk y' Hmk Hy E]; subst.
  - exact Hy.
  - destruct (dotted_ends _ Hmk) as (t & ->). simpl in E.
    injection E as <- _. discriminate Hc.
Qed.

Lemma filler_text_init (z : str) :
  filler_text z ->
  forall y c, z = y ++ [c] -> is_space c = true -> filler_text y.
Proof.
  induction 1 as [| c0 z' Hc0 Hz IH | mk z' Hmk Hz IH]; intros y c E Hc.
  - destruct y; discriminate.
  - destruct y as [|x y]; simpl in E; injection E as -> E.
    + constructor.
    + constructor; eauto.
  - destruct (str_eq_dec z' []) as [->|Hne].
    2: { destruct (exists_last Hne) as (w & c' & ->).
         rewrite app_assoc in E. apply app_inj_tail in E as [<- ->].
         constructor; eauto. }
    + destruct (dotted_ends _ Hmk) as (t & ->).
      rewrite app_nil_r in E. change (LBRACKET :: t ++ [RBRACKET])
        with ((LBRACKET :: t) ++ [RBRACKET]) in E.
      apply app_inj_tail in E as [_ <-]. discriminate Hc.
Qed.

Lemma filler_text_dropwhile (y : str) :
  filler_text y -> filler_text (dropwhile is_space y).
Proof.
  induction y as [|c y IH]; simpl; intros H; [exact H|].
  destruct (is_space c) eqn:E; [|exact H].
  apply IH. now apply filler_text_tail with (c := c).
Qed.

Lemma filler_text_drop_end (y : str) :
  filler_text y -> filler_text (rev (dropwhile is_space (rev y))).
Proof.
  induction y as [|c y IH] using rev_ind; intros H; [exact H|].
  rewrite rev_app_distr. simpl. destruct (is_space c) eqn:E.
  - apply IH. now apply filler_text_init with (z := y ++ [c]) (c := c).
  - change (c :: rev y) with (rev [c] ++ rev y).
    now rewrite <- rev_app_distr, rev_involutive.
Qed.

Lemma filler_text_strip (y : str) : filler_text y -> filler_text (strip y).
Proof.
  intros H. unfold strip. now apply filler_text_drop_end, filler_text_dropwhile.
Qed.

Lemma dotted_sub_filler_text (y : str) :
  filler_text y ->
  forallb is_space (re_sub BRACKET_WITH_DOT_RE (fun _ => []) y) = true.
Proof.
  induction 1 as [| c y Hc Hy IH | mk y Hmk Hy IH]; [reflexivity| |].
  - rewrite re_sub_miss; auto.
    + simpl. now rewrite Hc, IH.
    + apply BRACKET_WITH_DOT_RE_head. intros ->. discriminate Hc.
  - change (re_sub BRACKET_WITH_DOT_RE (fun _ => []) (mk ++ y))
      with (delete_dotted ([] ++ mk ++ y)).
    rewrite delete_dotted_marker by assumption. exact IH.
Qed.

(** X10: A line made only of white space, bare page markers and dotted page
    markers is not meaningful. *)
Theorem is_meaningful_line_fillers (items : list str) :
  forallb filler items = true ->
  is_meaningful_line (concat items) = false.
Proof.
  intros H. unfold is_meaningful_line.
  rewrite length_pos_strip.
  rewrite dotted_sub_filler_text; [reflexivity|].
  now apply filler_text_strip, page_sub_fillers.
Qed.

Lemma is_meaningful_line_fillers_witness :
  is_meaningful_line
    (concat [lit " "; lit "[1a]"; lit "[2b.3]"; lit "  "; lit "[4c]"])
  = false.
Proof.
  exact (@is_meaningful_line_fillers
           [lit " "; lit "[1a]"; lit "[2b.3]"; lit "  "; lit "[4c]"]
           eq_refl).
Defined.

(** ** [count_meaningful_lines_before_section] *)

(** X11: The pre-scan returns the number of meaningful lines before the first
    line that holds a section token, with the index of that line; when no
    line holds one, it returns the number of meaningful lines of the
    whole document, with [-1]. *)
Theorem count_meaningful_lines_before_section_spec (lines : list str) :
  (forallb no_raw_token lines = true
   /\ count_meaningful_lines_before_section lines
      = (count_meaningful lines, (-1)%Z))
  \/ (exists pre l post,
        lines = pre ++ l :: post
        /\ forallb no_raw_token pre = true
        /\ re_test SECTION_TOKEN_RE l = true
        /\ count_meaningful_lines_before_section lines
           = (count_meaningful pre, Z.of_nat (length pre))).
Proof.
  unfold count_meaningful_lines_before_section.
  destruct (count_loop_spec lines 0 0)
    as [[Hall ->] | (pre & l & post & E & Hall & Hl & ->)].
  - left. auto.
  - right. exists pre, l, post. auto.
Qed.

(** ** [replace_page_markers] *)

Lemma replace_page_markers_hit (s rest : str) (c : nat) :
  BRACKET_PAGE_RE s = Some (tt, rest) ->
  replace_page_markers s c
  = (lit "Page: " ++ str_of_nat c
       ++ fst (replace_page_markers rest (c + 1)),
     snd (replace_page_markers rest (c + 1))).
Proof.
  intros E. unfold replace_page_markers.
  rewrite re_sub_st_hit with (g := tt) (rest := rest) by auto.
  reflexivity.
Qed.

Lemma replace_page_markers_miss (x : char) (s : str) (c : nat) :
  BRACKET_PAGE_RE (x :: s) = None ->
  replace_page_markers (x :: s) c
  = (x :: fst (replace_page_markers s c), snd (replace_page_markers s c)).
Proof.
  intros E. unfold replace_page_markers.
  now rewrite re_sub_st_miss by auto.
Qed.

(** X12: [replace_page_markers] advances the counter by the number of bare
    page markers of the line, and leaves a line without one as it is. *)
Theorem replace_page_markers_counts (line : str) (c : nat) :
  snd (replace_page_markers line c)
  = c + length (re_matches BRACKET_PAGE_RE line)
  /\ (re_matches BRACKET_PAGE_RE line = [] ->
      replace_page_markers line c = (line, c)).
Proof.
  revert c. induction line as [| x s E IH | s [] rest E IH]
    using (scan_ind BRACKET_PAGE_RE_consumes); intros c.
  - split; [simpl; lia | reflexivity].
  - rewrite replace_page_markers_miss, re_matches_miss by auto.
    destruct (IH c) as [H1 H2]. split; [exact H1|].
    intros H. simpl. rewrite (H2 H). reflexivity.
  - rewrite replace_page_markers_hit with (rest := rest) by assumption.
    rewrite re_matches_hit with (g := tt) (rest := rest) by auto.
    destruct (IH (c + 1)) as [H1 _]. split; [|discriminate].
    simpl. rewrite H1. lia.
Qed.

(** X13: Numbering goes through a line from left to right: at any opening
    bracket, the text before it is numbered first, and the text from the
    bracket on is numbered from the counter reached there. *)
Theorem replace_page_markers_at_bracket (u y : str) (c : nat) :
  let before := replace_page_markers u c in
  let after := replace_page_markers (LBRACKET :: y) (snd before) in
  replace_page_markers (u ++ LBRACKET :: y) c
  = (fst before ++ fst after, snd after).
Proof.
  cbv zeta. unfold replace_page_markers.
  now rewrite re_sub_st_bracket by auto.
Qed.

(** X14: The first bare page marker of a line becomes "Page: c" for the
    counter [c] passed in, and the rest of the line is numbered from
    [c + 1]. *)
Theorem replace_page_markers_first_marker (pre mk rest : str) (c : nat) :
  has_char LBRACKET pre = false ->
  fullmatch BRACKET_PAGE_RE mk = true ->
  replace_page_markers (pre ++ mk ++ rest) c
  = (pre ++ lit "Page: " ++ str_of_nat c
       ++ fst (replace_page_markers rest (c + 1)),
     snd (replace_page_markers rest (c + 1))).
Proof.
  intros Hpre Hmk.
  destruct (fullmatch_page _ Hmk) as (t & _ & _ & _ & Hext).
  unfold replace_page_markers at 1.
  rewrite re_sub_st_plain by (auto; now apply has_char_false).
  fold (replace_page_markers (mk ++ rest) c).
  rewrite replace_page_markers_hit with (rest := rest) by apply Hext.
  reflexivity.
Qed.

Lemma replace_page_markers_first_marker_witness :
  replace_page_markers (lit "ab " ++ lit "[12c]" ++ lit " cd [3a] e") 7
  = (lit "ab Page: 7 cd Page: 8 e", 9).
Proof.
  exact (@replace_page_markers_first_marker (lit "ab ") (lit "[12c]")
           (lit " cd [3a] e") 7 eq_refl eq_refl).
Defined.

(** ** [write_section_file] *)

Lemma named_path (stem section : str) (lines : list str) :
  unnamed_section section = false ->
  w_path (write_section_file stem section lines)
  = stem ++ lit "_" ++ section ++ lit ".txt".
Proof.
  unfold unnamed_section, write_section_file. simpl.
  destruct (str_eq_dec section (lit "UNKNOWN")); [discriminate|].
  destruct (str_eq_dec section (lit "BASE")); [discriminate|]. reflexivity.
Qed.

Lemma unnamed_path (stem section : str) (lines : list str) :
  unnamed_section section = true ->
  w_path (write_section_file stem section lines) = stem ++ lit ".txt".
Proof.
  unfold unnamed_section, write_section_file. simpl.
  destruct (str_eq_dec section (lit "UNKNOWN")); [reflexivity|].
  destruct (str_eq_dec section (lit "BASE")); [reflexivity | discriminate].
Qed.

Lemma digits_no_slash (ds : str) :
  all is_digit ds -> has_char SLASH ds = false.
Proof.
  unfold all. induction ds as [|d ds IH]; [reflexivity|].
  cbn [forallb]. intros H. apply andb_prop in H as [Hd H].
  rewrite has_char_cons, (IH H).
  destruct (N.eqb_spec SLASH d) as [<-|]; [|reflexivity].
  vm_compute in Hd. discriminate Hd.
Qed.

Lemma token_text_no_slash (s : str) :
  is_token_text s = true -> has_char SLASH s = false.
Proof.
  unfold is_token_text. destruct s as [|c r]; [discriminate|].
  intros H. apply andb_prop in H as [Hc H].
  apply N.eqb_eq in Hc. subst c.
  destruct (span is_digit r) as [ds rest] eqn:E.
  apply andb_prop in H as [_ H].
  pose proof (span_app _ _ E) as ->.
  pose proof (span_all _ _ E) as Hd.
  rewrite has_char_cons, has_char_app, (digits_no_slash Hd).
  destruct rest as [|l [|l' rest]]; [reflexivity | | discriminate].
  rewrite has_char_cons.
  destruct (N.eqb_spec SLASH l) as [<-|]; [|reflexivity].
  vm_compute in H. discriminate H.
Qed.

Lemma passed_section_no_slash (s : str) :
  passed_section s = true -> has_char SLASH s = false.
Proof.
  unfold passed_section, unnamed_section. intros H.
  destruct (str_eq_dec s (lit "UNKNOWN")) as [->|]; [reflexivity|].
  destruct (str_eq_dec s (lit "BASE")) as [->|]; [reflexivity|].
  now apply token_text_no_slash.
Qed.

(** X15: For the stem of an input file (a file name, without "/") and
    the sections that [process_file] passes ("UNKNOWN", "BASE" or a
    section token: [process_file_passes_sections]), the name that [write_section_file] gives the output
    file holds no "/": it is one path component, and
    [output_dir / output_name] is that name inside the output directory.
    Two calls for one input file get the same name exactly when their
    sections are both UNKNOWN or BASE, or are the same section: UNKNOWN
    and BASE share the file named after the stem, and every section token
    has a file of its own. *)
Theorem write_section_file_same_path
    (stem s1 s2 : str) (l1 l2 : list str) :
  has_char SLASH stem = false ->
  passed_section s1 = true ->
  passed_section s2 = true ->
  has_char SLASH (w_path (write_section_file stem s1 l1)) = false
  /\ (w_path (write_section_file stem s1 l1)
        = w_path (write_section_file stem s2 l2)
      <-> (unnamed_section s1 = true /\ unnamed_section s2 = true)
          \/ s1 = s2).
Proof.
  intros Hstem P1 P2. split.
  - apply passed_section_no_slash in P1.
    destruct (unnamed_section s1) eqn:U1.
    + rewrite unnamed_path by assumption.
      now rewrite has_char_app, Hstem.
    + rewrite named_path by assumption.
      now rewrite !has_char_app, Hstem, P1.
  - destruct (unnamed_section s1) eqn:U1, (unnamed_section s2) eqn:U2.
    + rewrite !unnamed_path by assumption. tauto.
    + rewrite unnamed_path, named_path by assumption. split.
      * intros H. apply app_inv_head in H. discriminate H.
      * intros [[_ H] | H]; [discriminate | congruence].
    + rewrite named_path, unnamed_path by assumption. split.
      * intros H. apply app_inv_head in H. discriminate H.
      * intros [[H _] | H]; [discriminate | congruence].
    + rewrite !named_path by assumption. split.
      * intros H. apply app_inv_head in H. apply app_inv_head in H.
        apply app_inv_tail in H. now right.
      * intros [[H _] | ->]; [discriminate | reflexivity].
Qed.

Lemma write_section_file_same_path_witness :
  has_char SLASH
    (w_path (write_section_file (lit "f") (lit "BASE") [lit "x"])) = false
  /\ (w_path (write_section_file (lit "f") (lit "BASE") [lit "x"])
        = w_path (write_section_file (lit "f") (lit "D12a") [])
      <-> (unnamed_section (lit "BASE") = true
           /\ unnamed_section (lit "D12a") = true)
          \/ lit "BASE" = lit "D12a").
Proof.
  exact (@write_section_file_same_path (lit "f") (lit "BASE") (lit "D12a")
           [lit "x"] [] eq_refl eq_refl eq_refl).
Defined.

(** ** [process_file]: the sections written *)

Lemma tokens_snoc (pre : list str) (line : str) :
  tokens (pre ++ [line])
  = tokens pre ++ match token_of line with Some t => [t] | None => [] end.
Proof.
  unfold tokens. rewrite flat_map_app. simpl. now rewrite app_nil_r.
Qed.

Lemma has_token_tokens (pre : list str) :
  has_token pre = false -> tokens pre = [].
Proof.
  unfold has_token, tokens. induction pre as [|l pre IH]; [reflexivity|].
  simpl. destruct (token_of l); [discriminate|]. exact IH.
Qed.

Lemma sections_run (stem : str) (split : bool) (pre : list str) :
  map w_section (output_files (run stem split pre))
    ++ [current_section (run stem split pre)]
  = sections_met split pre.
Proof.
  induction pre as [|line pre IH] using rev_ind; [reflexivity|].
  destruct (tokens_ok_run stem split pre) as (Hc & _ & _).
  rewrite run_snoc.
  destruct (step_appends stem split (run stem split pre) line)
    as (_ & _ & -> & -> & _).
  unfold sections_met in *. rewrite has_token_snoc, tokens_snoc.
  unfold after_token. destruct (token_of line) as [tok|].
  - rewrite orb_true_r. unfold on_section_token.
    destruct (has_token pre) eqn:Hp; simpl in Hc; rewrite Hc.
    + destruct (flush_and_open_files stem
                  (current_section (run stem split pre)) tok 0
                  (run stem split pre)) as (ls & -> & -> & _).
      rewrite map_app. simpl. rewrite IH, <- app_assoc. reflexivity.
    + rewrite (has_token_tokens _ Hp). destruct split.
      * destruct (flush_and_open_files stem (lit "BASE") tok
                    (section_counter (run stem true pre))
                    (run stem true pre)) as (ls & -> & -> & _).
        rewrite map_app. simpl.
        destruct (output_files (run stem true pre)) as [|w ws];
          [reflexivity|].
        simpl in IH. injection IH as _ IH.
        destruct (map w_section ws); discriminate.
      * simpl.
        destruct (output_files (run stem false pre)) as [|w ws];
          [reflexivity|].
        simpl in IH. injection IH as _ IH.
        destruct (map w_section ws); discriminate.
  - rewrite orb_false_r, app_nil_r. exact IH.
Qed.

(** The sections that [process_file] passes to [write_section_file]. *)
Lemma token_text_is_token (num : str) (letter : option char) :
  num <> [] -> all is_digit num ->
  match letter with Some l => is_lower l = true | None => True end ->
  is_token_text (token_text num letter) = true.
Proof.
  intros Hne Hd Hl. unfold is_token_text, token_text.
  rewrite N.eqb_refl. cbn [andb].
  rewrite span_intro.
  - destruct num; [congruence|].
    destruct letter; [exact Hl | reflexivity].
  - exact Hd.
  - destruct letter as [l|]; [|exact I].
    simpl. now apply lower_not_digit.
Qed.

Lemma token_of_passed (line tok : str) :
  token_of line = Some tok -> passed_section tok = true.
Proof.
  unfold token_of, process_line.
  destruct (re_search SECTION_TOKEN_RE _) as [[[num letter] rest]|] eqn:E;
    simpl; intros H; inversion H; subst.
  apply re_search_some in E as (pre & s' & _ & E).
  apply SECTION_TOKEN_RE_some in E as (Hne & Hd & Hl).
  unfold passed_section. apply orb_true_iff. right.
  apply (token_text_is_token letter Hne Hd).
  destruct letter; [tauto | exact I].
Qed.

Lemma sections_met_passed (split : bool) (pre : list str) (s : str) :
  In s (sections_met split pre) -> passed_section s = true.
Proof.
  unfold sections_met. destruct (has_token pre).
  - intros H. apply in_app_or in H as [H | H].
    + destruct split; [|contradiction]. destruct H as [<- | []].
      reflexivity.
    + unfold tokens in H. apply in_flat_map in H as (l & _ & H).
      destruct (token_of l) as [t|] eqn:E; [|contradiction].
      destruct H as [<- | []]. now apply (token_of_passed l).
  - intros [<- | []]. reflexivity.
Qed.

Lemma process_file_passes_sections
    (stem : str) (content_threshold : nat) (lines : list str) (w : written) :
  In w (process_file stem content_threshold lines) ->
  passed_section (w_section w) = true.
Proof.
  intros H. apply (in_map w_section) in H. revert H.
  destruct (final_flush_spec stem content_threshold lines) as [_ ->].
  destruct lines as [|l lines]; [intros []|].
  rewrite map_app.
  unfold scan.
  fold (run stem (should_split content_threshold (l :: lines)) (l :: lines)).
  change (map w_section [write_section_file stem ?s ?b]) with [s].
  rewrite sections_run. apply sections_met_passed.
Qed.

(** X16: The output files of a document follow its section tokens: one file
    per line from which [process_line] extracts a token, in the order of
    these lines, after the lead-in file BASE when the split heuristic
    holds; a document without token gives the single file UNKNOWN, and an
    empty document none. *)
Theorem process_file_sections
    (stem : str) (content_threshold : nat) (lines : list str) :
  map w_section (process_file stem content_threshold lines)
  = match lines with
    | [] => []
    | _ :: _ => sections_met (should_split content_threshold lines) lines
    end.
Proof.
  destruct (final_flush_spec stem content_threshold lines) as [_ ->].
  destruct lines as [|l lines]; [reflexivity|].
  rewrite map_app.
  exact (sections_run stem (should_split content_threshold (l :: lines))
           (l :: lines)).
Qed.

(** ** [process_file]: documents without page markers *)

Lemma find_and_remove_nothing (lines : list str) :
  find_and_remove None lines = (None, lines).
Proof. reflexivity. Qed.

Lemma emitted_lines_snoc (out : list written) (w : written) :
  emitted_lines (out ++ [w]) = emitted_lines out ++ w_lines w.
Proof.
  unfold emitted_lines. rewrite map_app, concat_app. simpl.
  now rewrite app_nil_r.
Qed.

Lemma run_without_markers (stem : str) (split : bool) (pre : list str) :
  forallb no_marker pre = true ->
  last_page_marker_line (run stem split pre) = None
  /\ emitted_lines (output_files (run stem split pre))
       ++ current_lines (run stem split pre)
     = map processed pre.
Proof.
  induction pre as [|line pre IH] using rev_ind; intros H.
  - split; reflexivity.
  - rewrite forallb_app in H. apply andb_prop in H as [Hpre Hl].
    simpl in Hl. rewrite andb_true_r in Hl. unfold no_marker in Hl.
    apply negb_true_iff in Hl.
    destruct (IH Hpre) as [Hlast Hem].
    rewrite run_snoc.
    destruct (step_appends stem split (run stem split pre) line)
      as (-> & _ & -> & _ & _ & ->).
    rewrite Hl. simpl.
    rewrite replace_page_markers_no_marker
      by (now rewrite <- marker_flag_spec).
    simpl. rewrite map_app. simpl. rewrite <- Hem.
    set (st := run stem split pre) in *.
    destruct (flushes split st line) eqn:F.
    + destruct (after_token_flush stem _ _ _ F) as (fa & tok & sc & ->).
      unfold flush_and_open. rewrite Hlast, find_and_remove_nothing.
      simpl. rewrite emitted_lines_snoc. simpl.
      rewrite <- !app_assoc. auto.
    + destruct (after_token_no_flush stem _ _ _ F) as (-> & -> & _ & ->).
      rewrite app_assoc. auto.
Qed.

(** X17: Round trip for a document in which [process_line] flags no bare page
    marker: the lines of the output files, taken in the order the files
    are written, are exactly the processed lines of the document, in
    order, each once. *)
Theorem process_file_round_trip_without_markers
    (stem : str) (content_threshold : nat) (lines : list str) :
  forallb no_marker lines = true ->
  emitted_lines (process_file stem content_threshold lines)
  = map processed lines.
Proof.
  intros H.
  destruct (@run_without_markers stem
              (should_split content_threshold lines) lines H) as [_ Hem].
  unfold process_file, final_flush, scan.
  fold (run stem (should_split content_threshold lines) lines).
  destruct (current_lines (run stem _ lines)) as [|l ls] eqn:E.
  - now rewrite app_nil_r in Hem.
  - now rewrite emitted_lines_snoc.
Qed.

Lemma process_file_round_trip_without_markers_witness :
  emitted_lines
    (process_file (lit "f") 50
       [lit "a{x,y}"; lit "{D1}b[1a.1]"; lit "c"; lit "{D2}d{D2-1}"])
  = [lit "ay"; lit "b"; lit "c"; lit "d"].
Proof.
  exact (@process_file_round_trip_without_markers (lit "f") 50
           [lit "a{x,y}"; lit "{D1}b[1a.1]"; lit "c"; lit "{D2}d{D2-1}"]
           eq_refl).
Defined.

(** ** [process_file]: the relocation at a flush *)

(** X18: The backward search of the relocation never finds a line: in every
    state the scan reaches, no line of the buffer holds a bare page
    marker.  So every flush writes the whole buffer, and no line is ever
    removed from it. *)
Theorem relocation_removes_nothing
    (stem : str) (split : bool) (lines : list str) (line : str) :
  let st := run stem split lines in
  pop_last_marker (current_lines st) = None
  /\ (flushes split st line = true ->
      output_files (after_token stem split st line)
      = output_files st
          ++ [write_section_file stem
                (if section_counter st =? 0 then lit "BASE"
                 else current_section st)
                (current_lines st)]).
Proof.
  cbv zeta.
  pose proof (search_never_finds stem split lines) as Hpop.
  split; [exact Hpop|]. intros F.
  unfold flushes in F. unfold after_token, on_section_token.
  destruct (token_of line) as [tok|]; [|discriminate].
  destruct (section_counter _ =? 0); [subst split|];
    unfold flush_and_open; rewrite find_and_remove_none by assumption;
    destruct (last_page_marker_line _); reflexivity.
Qed.

Lemma no_pending_line_before_first_token
    (stem : str) (split : bool) (lines : list str) :
  section_counter (run stem split lines) = 0 ->
  last_page_marker_line (run stem split lines) = None.
Proof.
  induction lines as [|line pre IH] using rev_ind; [reflexivity|].
  rewrite run_snoc.
  destruct (step_appends stem split (run stem split pre) line)
    as (_ & _ & _ & _ & -> & ->).
  unfold after_token. destruct (token_of line) as [tok|].
  - unfold on_section_token.
    destruct (section_counter (run stem split pre) =? 0) eqn:Z.
    + destruct split.
      * destruct (flush_and_open_files stem (lit "BASE") tok
                    (section_counter (run stem true pre))
                    (run stem true pre)) as (ls & _ & _ & ->).
        lia.
      * simpl. lia.
    + destruct (flush_and_open_files stem
                  (current_section (run stem split pre)) tok 0
                  (run stem split pre)) as (ls & _ & _ & ->).
      lia.
  - intros H. rewrite H. simpl. rewrite andb_false_r. auto.
Qed.

(** X19: No line is ever re-homed at the first section token: no page-marker
    line is remembered before a section is opened, so the buffer opened by
    the lead-in flush starts empty, with its page counter at 1. *)
Theorem lead_in_flush_rehomes_nothing
    (stem : str) (lines : list str) (line : str) :
  let st := run stem true lines in
  section_counter st = 0 ->
  flushes true st line = true ->
  last_page_marker_line st = None
  /\ current_lines (after_token stem true st line) = []
  /\ page_counter (after_token stem true st line) = 1.
Proof.
  cbv zeta. intros Hsc F.
  pose proof (no_pending_line_before_first_token stem true lines Hsc) as Hl.
  split; [exact Hl|].
  unfold flushes in F. unfold after_token, on_section_token.
  destruct (token_of line) as [tok|]; [|discriminate].
  rewrite Hsc. simpl. unfold flush_and_open.
  rewrite Hl, find_and_remove_nothing. simpl. auto.
Qed.

Lemma lead_in_flush_rehomes_nothing_witness :
  let st := run (lit "f") true [lit "[1a]x"; lit "y"] in
  last_page_marker_line st = None
  /\ current_lines (after_token (lit "f") true st (lit "{D1}z")) = []
  /\ page_counter (after_token (lit "f") true st (lit "{D1}z")) = 1.
Proof.
  exact (@lead_in_flush_rehomes_nothing (lit "f") [lit "[1a]x"; lit "y"]
           (lit "{D1}z") eq_refl eq_refl).
Defined.

(** ** [process_all_files]: a batch without failure *)

Lemma process_loop_ok (writable : str -> bool) (content_threshold : nat)
    (fs : list input_file) (total : nat) (w : world) :
  forallb (succeeds writable content_threshold) fs = true ->
  process_loop writable content_threshold fs total w
  = (Returned
       (total + length (concat (map (outputs_of content_threshold) fs))),
     {| disk := disk w ++ concat (map (outputs_of content_threshold) fs);
        printed := printed w ++ map (done content_threshold) fs |}).
Proof.
  revert total w. induction fs as [|f fs IH]; intros total w H.
  - simpl. unfold ret. rewrite Nat.add_0_r, !app_nil_r. now destruct w.
  - simpl in H. apply andb_prop in H as [Hf H]. unfold succeeds in Hf.
    destruct (first_error writable content_threshold f) eqn:Ef;
      [discriminate|].
    simpl. unfold io_bind at 1. rewrite process_file_io_ok by assumption.
    unfold io_bind at 1. unfold print at 1. rewrite IH by assumption.
    simpl. rewrite length_app, <- !app_assoc, Nat.add_assoc. reflexivity.
Qed.

(** X20: When every file can be read and written, [process_all_files] returns
    normally; the output directory then holds the files of each input
    file, in the order of the input files, and the lines printed are the
    number of input files, one line per file with the number of its
    output files, and the total number of files written.  Without input
    files it only prints that there are none. *)
Theorem process_all_files_without_failure
    (writable : str -> bool) (content_threshold : nat)
    (txt_files : list input_file) :
  forallb (succeeds writable content_threshold) txt_files = true ->
  let out := concat (map (outputs_of content_threshold) txt_files) in
  process_all_files writable content_threshold txt_files empty_world
  = (Returned tt,
     match txt_files with
     | [] => {| disk := []; printed := [NoFiles] |}
     | _ :: _ =>
         {| disk := out;
            printed := Found (length txt_files)
                       :: map (done content_threshold) txt_files
                       ++ [Done (length out)] |}
     end).
Proof.
  intros H. cbv zeta. unfold process_all_files.
  destruct txt_files as [|f fs] eqn:E; [reflexivity|].
  rewrite <- E in *. unfold io_bind at 1. unfold print at 1.
  unfold io_bind at 1. rewrite process_loop_ok by assumption.
  unfold print. simpl. reflexivity.
Qed.

Lemma process_all_files_without_failure_witness :
  process_all_files (fun _ => true) 50
    [ {| stem_of := lit "a"; read_lines := Some [lit "x"; lit "{D1}y"] |};
      {| stem_of := lit "b"; read_lines := Some [] |} ]
    empty_world
  = (Returned tt,
     {| disk := [ {| w_section := lit "D1"; w_path := lit "a_D1.txt";
                     w_lines := [lit "x"; lit "y"] |} ];
        printed := [Found 2; FileDone (lit "a") 1; FileDone (lit "b") 0;
                    Done 1] |}).
Proof.
  exact (@process_all_files_without_failure (fun _ => true) 50
           [ {| stem_of := lit "a";
                read_lines := Some [lit "x"; lit "{D1}y"] |};
             {| stem_of := lit "b"; read_lines := Some [] |} ]
           eq_refl).
Defined.

(** X3: The patterns do not overlap: where a bare page marker matches, no
    dotted marker matches, and where a section token matches, no section
    dash token matches. *)
Theorem patterns_disjoint (s : str) :
  (BRACKET_PAGE_RE s = None \/ BRACKET_WITH_DOT_RE s = None)
  /\ (SECTION_TOKEN_RE s = None \/ SECTION_DASH_TOKEN_RE s = None).
Proof. split; [apply page_dotted_disjoint | apply section_dash_disjoint]. Qed.

(** * The repository's tests

    The cases of [tests/test_kagyur_splitter.py], run on the embedding;
    Tibetan text is given by its code points. *)

Lemma test_process_line_examples :
  process_line ([3942; 4006; 4017; 3908; 3851; 3926; 3851; 123; 3926; 3909;
      4013; 3851; 44; 3926; 3909; 3964; 3851; 125; 3926; 3938; 3986; 4017;
      3921; 3851; 3924; 3964; 3851; 3921; 3906]%N)
  = ([3942; 4006; 4017; 3908; 3851; 3926; 3851; 3926; 3909; 3964; 3851;
      3926; 3938; 3986; 4017; 3921; 3851; 3924; 3964; 3851; 3921; 3906]%N,
      None, false)
  /\ process_line ([91; 49; 97; 46; 49; 93; 3920; 3956; 3923; 3851; 3928;
      3964; 3908; 3851; 3928; 3851; 3937; 3954; 3923; 3851; 3924; 3851;
      3906; 3908; 3851; 3934; 3962; 3851; 3923; 3853]%N)
  = ([3920; 3956; 3923; 3851; 3928; 3964; 3908; 3851; 3928; 3851; 3937;
      3954; 3923; 3851; 3924; 3851; 3906; 3908; 3851; 3934; 3962; 3851;
      3923; 3853]%N, None, false)
  /\ process_line ([123; 68; 49; 125; 3921; 3906; 3962; 3851; 3942; 4019;
      3964; 3908; 3851; 3921; 3906; 3851; 3942; 3988; 3964; 3923; 3851;
      3926; 4017; 3956; 3908; 3851; 3926; 3851; 3926; 3953; 3851; 3938;
      3953; 3851; 3918; 3851; 3942; 3953; 3954; 3936; 3954; 3851; 3906;
      4018; 3964; 3908; 3851; 3905; 4017; 3962; 3938; 3851; 3921; 3956;
      3853]%N)
  = ([3921; 3906; 3962; 3851; 3942; 4019; 3964; 3908; 3851; 3921; 3906;
      3851; 3942; 3988; 3964; 3923; 3851; 3926; 4017; 3956; 3908; 3851;
      3926; 3851; 3926; 3953; 3851; 3938; 3953; 3851; 3918; 3851; 3942;
      3953; 3954; 3936; 3954; 3851; 3906; 4018; 3964; 3908; 3851; 3905;
      4017; 3962; 3938; 3851; 3921; 3956; 3853]%N, Some (lit "D1"), false)
  /\ process_line ([91; 49; 97; 93; 3938; 3986; 4017; 3939; 3851; 3924;
      3964; 3851; 3930; 3908; 3942; 3851; 3942; 4006; 4017; 3954; 3923;
      3851; 3934; 3962; 3942; 3851; 3926; 4017; 3851; 3926; 3851; 3938;
      3986; 4017; 3939; 3851; 3942; 4018; 3954; 3921; 3851; 3926; 4017;
      3962; 3921; 3851; 3921; 3956; 3853]%N)
  = ([91; 49; 97; 93; 3938; 3986; 4017; 3939; 3851; 3924; 3964; 3851; 3930;
      3908; 3942; 3851; 3942; 4006; 4017; 3954; 3923; 3851; 3934; 3962;
      3942; 3851; 3926; 4017; 3851; 3926; 3851; 3938; 3986; 4017; 3939;
      3851; 3942; 4018; 3954; 3921; 3851; 3926; 4017; 3962; 3921; 3851;
      3921; 3956; 3853]%N, None, true)
  /\ process_line ([91; 49; 98; 46; 52; 93; 123; 68; 49; 125; 123; 68; 49;
      45; 49; 125; 3844; 3845; 3845; 3853; 32; 3853; 3938; 3986; 4017; 3851;
      3906; 3938; 3851; 3942; 3984; 3921; 3851; 3921; 3956; 3853; 32; 3926;
      3954; 3851; 3923; 3851; 3937; 3851; 3926; 3942; 3999; 3956; 3853; 32;
      3926; 3964; 3921; 3851; 3942; 3984; 3921; 3851; 3921; 3956; 3853; 32;
      3936; 3921; 3956; 3939; 3851; 3926; 3851; 3906; 3934; 3954; 3853; 32;
      3926; 3928; 3851; 3924; 3964; 3851; 3921; 3908; 3851; 3924; 3964;
      3853]%N)
  = ([3844; 3845; 3845; 3853; 32; 3853; 3938; 3986; 4017; 3851; 3906; 3938;
      3851; 3942; 3984; 3921; 3851; 3921; 3956; 3853; 32; 3926; 3954; 3851;
      3923; 3851; 3937; 3851; 3926; 3942; 3999; 3956; 3853; 32; 3926; 3964;
      3921; 3851; 3942; 3984; 3921; 3851; 3921; 3956; 3853; 32; 3936; 3921;
      3956; 3939; 3851; 3926; 3851; 3906; 3934; 3954; 3853; 32; 3926; 3928;
      3851; 3924; 3964; 3851; 3921; 3908; 3851; 3924; 3964; 3853]%N, Some
      (lit "D1"), false)
  /\ process_line ([91; 50; 97; 93; 3926; 4017; 3908; 3851; 3910; 3956;
      3926; 3851; 123; 3926; 3909; 4013; 3851; 44; 3926; 3909; 3964; 3851;
      125; 3942; 3962; 3928; 3942; 3851; 3921; 3924; 3936; 3851; 3921; 3906;
      3936; 3851; 3939; 4001; 3923; 3851; 3906; 4017; 3954; 3851; 3906;
      3923; 3942; 3851; 3923; 3851; 3926; 3934; 3956; 3906; 3942; 3851;
      3924; 3851; 3923; 3853]%N)
  = ([91; 50; 97; 93; 3926; 4017; 3908; 3851; 3910; 3956; 3926; 3851; 3926;
      3909; 3964; 3851; 3942; 3962; 3928; 3942; 3851; 3921; 3924; 3936;
      3851; 3921; 3906; 3936; 3851; 3939; 4001; 3923; 3851; 3906; 4017;
      3954; 3851; 3906; 3923; 3942; 3851; 3923; 3851; 3926; 3934; 3956;
      3906; 3942; 3851; 3924; 3851; 3923; 3853]%N, None, true)
  /\ process_line ([91; 51; 97; 46; 50; 93; 123; 68; 50; 125; 3906; 3934;
      3923; 3851; 123; 3930; 3964; 3942; 3851; 44; 3930; 3964; 3908; 3851;
      125; 3921; 3956; 3942; 3851; 3921; 3908; 3851; 3853; 32; 3853; 3926;
      3934; 3954; 3851; 3928; 3921; 3964; 3851; 3921; 3908; 3851; 3853; 32;
      3942; 3956; 3928; 3851; 3928; 3921; 3964; 3851; 3938; 4003; 3928;
      3942; 3851; 3942; 3956; 3853]%N)
  = ([3906; 3934; 3923; 3851; 3930; 3964; 3908; 3851; 3921; 3956; 3942;
      3851; 3921; 3908; 3851; 3853; 32; 3853; 3926; 3934; 3954; 3851; 3928;
      3921; 3964; 3851; 3921; 3908; 3851; 3853; 32; 3942; 3956; 3928; 3851;
      3928; 3921; 3964; 3851; 3938; 4003; 3928; 3942; 3851; 3942; 3956;
      3853]%N, Some (lit "D2"), false)
  /\ process_line ([123; 68; 49; 97; 125; 3938; 3986; 4017; 3939; 3851;
      3924; 3964; 3851; 3924; 3921; 3851; 3928; 3851; 3910; 3962; 3923;
      3851; 3924; 3964; 3851; 3939; 3851; 3939; 4023; 3851; 3944; 3908;
      3851; 3906; 3936; 3954; 3851; 3938; 3986; 4017; 3939; 3851; 3924;
      3964; 3942; 3853]%N)
  = ([3938; 3986; 4017; 3939; 3851; 3924; 3964; 3851; 3924; 3921; 3851;
      3928; 3851; 3910; 3962; 3923; 3851; 3924; 3964; 3851; 3939; 3851;
      3939; 4023; 3851; 3944; 3908; 3851; 3906; 3936; 3954; 3851; 3938;
      3986; 4017; 3939; 3851; 3924; 3964; 3942; 3853]%N, Some (lit "D1a"),
      false)
  /\ process_line ([3905; 3908; 3851; 123; 3926; 3935; 3908; 3942; 3851;
      3904; 4017; 3954; 3851; 44; 3926; 3935; 3908; 3851; 3906; 3954; 3851;
      125; 3906; 3934; 3954; 3938; 3851; 3906; 3919; 3964; 3906; 3942; 3851;
      3924; 3851; 3923; 3851; 3926; 4019; 3964; 3923; 3851; 3924; 3964;
      3936; 3954; 3851; 123; 3930; 3964; 3942; 3851; 44; 3930; 3964; 3908;
      3851; 125; 3904; 4017; 3954; 3942; 3853]%N)
  = ([3905; 3908; 3851; 3926; 3935; 3908; 3851; 3906; 3954; 3851; 3906;
      3934; 3954; 3938; 3851; 3906; 3919; 3964; 3906; 3942; 3851; 3924;
      3851; 3923; 3851; 3926; 4019; 3964; 3923; 3851; 3924; 3964; 3936;
      3954; 3851; 3930; 3964; 3908; 3851; 3904; 4017; 3954; 3942; 3853]%N,
      None, false)
  /\ process_line (lit "")
  = (lit "", None, false)
  /\ process_line (lit "   ")
  = (lit "   ", None, false)
  /\ process_line (lit "[1a.1][2b.3]")
  = (lit "", None, false)
  /\ process_line (lit "[1a][2b]")
  = (lit "[1a][2b]", None, true).
Proof. vm_compute. repeat split. Qed.

Lemma test_replace_page_markers_examples :
  replace_page_markers (lit "[1a]") 1
  = (lit "Page: 1", 2)
  /\ replace_page_markers ([91; 49; 97; 93; 32; 3920; 3956; 3923; 3851;
      3928; 3964; 3908; 3851; 3928; 3851; 3937; 3954; 3923; 3851; 3924;
      3853; 32; 91; 49; 98; 93; 32; 3921; 3906; 3962; 3851; 3942; 4019;
      3964; 3908; 3851; 3921; 3906; 3851; 3942; 3988; 3964; 3923; 3851;
      3926; 4017; 3956; 3908; 3851; 3926; 3853]%N) 1
  = ([80; 97; 103; 101; 58; 32; 49; 32; 3920; 3956; 3923; 3851; 3928; 3964;
      3908; 3851; 3928; 3851; 3937; 3954; 3923; 3851; 3924; 3853; 32; 80;
      97; 103; 101; 58; 32; 50; 32; 3921; 3906; 3962; 3851; 3942; 4019;
      3964; 3908; 3851; 3921; 3906; 3851; 3942; 3988; 3964; 3923; 3851;
      3926; 4017; 3956; 3908; 3851; 3926; 3853]%N, 3)
  /\ replace_page_markers ([91; 50; 97; 93; 3926; 4017; 3908; 3851; 3910;
      3956; 3926; 3851; 3942; 3962; 3928; 3942; 3851; 3921; 3924; 3936;
      3853; 32; 91; 50; 98; 93; 3921; 3906; 3936; 3851; 3939; 4001; 3923;
      3851; 3906; 4017; 3954; 3851; 3906; 3923; 3942; 3851; 3923; 3853; 32;
      91; 51; 97; 93; 3926; 3934; 3956; 3906; 3942; 3851; 3924; 3851; 3923;
      3853]%N) 5
  = ([80; 97; 103; 101; 58; 32; 53; 3926; 4017; 3908; 3851; 3910; 3956;
      3926; 3851; 3942; 3962; 3928; 3942; 3851; 3921; 3924; 3936; 3853; 32;
      80; 97; 103; 101; 58; 32; 54; 3921; 3906; 3936; 3851; 3939; 4001;
      3923; 3851; 3906; 4017; 3954; 3851; 3906; 3923; 3942; 3851; 3923;
      3853; 32; 80; 97; 103; 101; 58; 32; 55; 3926; 3934; 3956; 3906; 3942;
      3851; 3924; 3851; 3923; 3853]%N, 8)
  /\ replace_page_markers (lit "no page markers here") 1
  = (lit "no page markers here", 1).
Proof. vm_compute. repeat split. Qed.

Lemma test_meaningful_line_examples :
  is_meaningful_line ([3844; 3845; 3845; 3853; 32; 3853; 3938; 3986; 4017;
      3851; 3906; 3938; 3851; 3942; 3984; 3921; 3851; 3921; 3956; 3853; 32;
      3926; 3954; 3851; 3923; 3851; 3937; 3851; 3926; 3942; 3999; 3956;
      3853]%N) = true
  /\ is_meaningful_line ([3921; 3906; 3962; 3851; 3942; 4019; 3964; 3908;
      3851; 3921; 3906; 3851; 3942; 3988; 3964; 3923; 3851; 3926; 4017;
      3956; 3908; 3851; 3926; 3851; 3926; 3953; 3851; 3938; 3953; 3851;
      3918; 3851; 3942; 3953; 3954; 3936; 3954; 3851; 3906; 4018; 3964;
      3908; 3851; 3905; 4017; 3962; 3938; 3851; 3921; 3956; 3853]%N) = true
  /\ is_meaningful_line ([3938; 3986; 4017; 3939; 3851; 3924; 3964; 3851;
      3930; 3908; 3942; 3851; 3942; 4006; 4017; 3954; 3923; 3851; 3934;
      3962; 3942; 3851; 3926; 4017; 3851; 3926; 3851; 3938; 3986; 4017;
      3939; 3851; 3942; 4018; 3954; 3921; 3851; 3926; 4017; 3962; 3921;
      3851; 3921; 3956; 3851; 3936; 3911; 3956; 3906; 3851; 3942; 3999;
      3962; 3853]%N) = true
  /\ is_meaningful_line (lit "[1a]") = false
  /\ is_meaningful_line (lit "[1a.1]") = false
  /\ is_meaningful_line (lit "[2b.4]") = false
  /\ is_meaningful_line (lit "") = false
  /\ is_meaningful_line (lit "   ") = false
  /\ is_meaningful_line ([9; 10]%N) = false
  /\ is_meaningful_line ([91; 49; 97; 93; 32; 3904]%N) = true
  /\ is_meaningful_line ([91; 49; 97; 46; 49; 93; 32; 3905]%N) = true
  /\ is_meaningful_line (lit "   [2b]   ") = false.
Proof. vm_compute. repeat split. Qed.

